(** * The migration plan generator of upjet (package [migration])

    A shallow embedding of the plan generator: the resource, patch-set,
    configuration and composition conversions, template defaulting, the
    main pass of [convert] and [GeneratePlan], followed by the properties
    of the generator that its specification states.

    Conventions of the embedding:
    - a Go [error] value is an [option error], [None] being [nil];
    - a nil slice and an empty slice are both the empty list (the code only
      ranges over them and takes their length);
    - a nilable pointer or interface value is an [option];
    - a callee that mutates an object it is handed through a pointer or a
      map returns the mutated object next to its Go results;
    - a run-time panic (a nil interface dereferenced, a failed type
      assertion) is the outcome [Panics];
    - the functions of the package that are defined outside the file of
      the generator, and the libraries that the generator calls, are the
      fields of the class [Collaborators]. *)

From stdpp Require Import gmap strings list.

(** ** Errors ([github.com/pkg/errors]) *)

Inductive error : Type :=
| errors_New (msg : string)
| errors_WithMessage (cause : error) (msg : string).

(** [errors.Wrap] and [errors.Wrapf] return nil when handed nil. *)
Definition errors_Wrap (err : option error) (msg : string) : option error :=
  match err with
  | None => None
  | Some e => Some (errors_WithMessage e msg)
  end.

Fixpoint Error (e : error) : string :=
  match e with
  | errors_New msg => msg
  | errors_WithMessage cause msg => msg +:+ ": " +:+ Error cause
  end.

Definition errSourceHasNext : string :=
  "failed to generate migration plan: Could not check next object from source".
Definition errSourceNext : string :=
  "failed to generate migration plan: Could not get next object from source".
Definition errUnstructuredConvert : string :=
  "failed to convert from unstructured object to v1.Composition".
Definition errUnstructuredMarshal : string :=
  "failed to marshal unstructured object to JSON".
Definition errResourceMigrate : string := "failed to migrate resource".
Definition errCompositePause : string := "failed to pause composite resource".
Definition errCompositesEdit : string := "failed to edit composite resources".
Definition errCompositesStart : string := "failed to start composite resources".
Definition errCompositionMigrateFmt (name : string) : string :=
  "failed to migrate the composition: " +:+ name.
Definition errConfigurationMigrateFmt (name : string) : string :=
  "failed to migrate the configuration: " +:+ name.
Definition errComposedTemplateBase : string :=
  "failed to migrate the base of a composed template".
Definition errComposedTemplateMigrate : string :=
  "failed to migrate the composed templates of the composition".
Definition errClaimsEdit : string := "failed to edit claims".
Definition errPlanGeneration : string := "failed to generate the migration plan".
Definition errMissingGVK : string :=
  "managed resource is missing its GVK. Resource converters must set GVKs on any managed resources they newly generate.".

Definition versionV010 : string := "0.1.0".

(** ** Outcomes and the state monad of the generator *)

Inductive outcome (A : Type) : Type :=
| Returns (a : A)
| Panics.
Arguments Returns {A} a.
Arguments Panics {A}.

Definition Eff (S A : Type) : Type := S → outcome A * S.

Definition ret {S A : Type} (a : A) : Eff S A := λ s, (Returns a, s).

Definition bind {S A B : Type} (m : Eff S A) (k : A → Eff S B) : Eff S B :=
  λ s, match m s with
       | (Returns a, s') => k a s'
       | (Panics, s') => (Panics, s')
       end.

Definition panic {S A : Type} : Eff S A := λ s, (Panics, s).

Notation "'let*' x := m 'in' k" := (bind m (λ x, k))
  (at level 10, x pattern, m at level 100, k at level 200, only parsing).

(** ** Type identifiers ([k8s.io/apimachinery/pkg/runtime/schema]) *)

Record schema_GroupVersionKind : Type := {
  Group : string;
  Version : string;
  Kind : string;
}.

#[global] Instance schema_GroupVersionKind_eq_dec :
  EqDecision schema_GroupVersionKind.
Proof. solve_decision. Defined.

#[global] Program Instance schema_GroupVersionKind_countable :
  Countable schema_GroupVersionKind :=
  inj_countable' (λ g, (Group g, Version g, Kind g))
                 (λ t, {| Group := t.1.1; Version := t.1.2; Kind := t.2 |}) _.
Next Obligation. by intros []. Qed.

(** [reflect.ValueOf(gvk).IsZero()]: every field is the empty string. *)
Definition IsZero (gvk : schema_GroupVersionKind) : bool :=
  bool_decide (gvk = {| Group := ""; Version := ""; Kind := "" |}).

(** [gvk.GroupVersion().String()] *)
Definition GroupVersion_String (gvk : schema_GroupVersionKind) : string :=
  if (0 <? String.length (Group gvk))%nat
  then Group gvk +:+ "/" +:+ Version gvk
  else Version gvk.

Definition xpmetav1_ConfigurationGroupVersionKind : schema_GroupVersionKind :=
  {| Group := "meta.pkg.crossplane.io"; Version := "v1";
     Kind := "Configuration" |}.
Definition xpmetav1alpha1_ConfigurationGroupVersionKind
  : schema_GroupVersionKind :=
  {| Group := "meta.pkg.crossplane.io"; Version := "v1alpha1";
     Kind := "Configuration" |}.
Definition xpv1_CompositionGroupVersionKind : schema_GroupVersionKind :=
  {| Group := "apiextensions.crossplane.io"; Version := "v1";
     Kind := "Composition" |}.

(** [corev1.ObjectReference], with the three fields the generator sets. *)
Record corev1_ObjectReference : Type := {
  ref_Kind : string;
  ref_Name : string;
  ref_APIVersion : string;
}.

#[global] Instance corev1_ObjectReference_eq_dec :
  EqDecision corev1_ObjectReference.
Proof. solve_decision. Defined.

#[global] Program Instance corev1_ObjectReference_countable :
  Countable corev1_ObjectReference :=
  inj_countable' (λ r, (ref_Kind r, ref_Name r, ref_APIVersion r))
                 (λ t, {| ref_Kind := t.1.1; ref_Name := t.1.2;
                          ref_APIVersion := t.2 |}) _.
Next Obligation. by intros []. Qed.

(** [*regexp.Regexp], through the one method the generator calls. *)
Record Regexp : Type := { MatchString : string → bool }.


(** [inplace old new]: what a caller sees of a slice of pointers after a
    callee rewrote the pointed-to values: the slice keeps its length. *)
Definition inplace {A : Type} (old new : list A) : list A :=
  take (length old) new ++ drop (length new) old.

(** [rewritten old new]: what a caller holds in a pointer after a callee
    rewrote the pointed-to value to [new]: the pointer is the one it was,
    so a nil pointer stays nil. *)
Definition rewritten {A : Type} (old new : option A) : option A :=
  match old with
  | Some o => Some (default o new)
  | None => None
  end.

(** A call that returns a value or an error, never both. *)
Inductive result (A : Type) : Type :=
| Success (a : A)
| Failure (e : error).
Arguments Success {A} a.
Arguments Failure {A} e.

(** ** The types the generator is generic in *)

Class Carriers : Type := {
  (** the state outside the generator: converter plug-ins, the random
      source of [k8s.io/apimachinery/pkg/util/rand], the target sink *)
  World : Type;
  (** the fields of a document that the generator never reads *)
  Fields : Type;
  xpv1_Patch : Type;
  xpmetav1_Configuration : Type;
  xpmetav1alpha1_Configuration : Type;
  runtime_Scheme : Type;
  (** the key and the value of [Plan.Spec.stepMap] *)
  step : Type;
  Step : Type;
  step_eq_dec :: EqDecision step;
  step_countable :: Countable step;
}.

(** Modelled from the spec: the declaration of [Category] is not among the
    sources; the roles are those of the object envelope of section 3. *)
Inductive Category : Type :=
| CategoryManaged
| CategoryComposite
| CategoryClaim
| CategoryComposition
| CategoryConfiguration
| CategoryOther.

#[global] Instance Category_eq_dec : EqDecision Category.
Proof. solve_decision. Defined.

Record Metadata : Type := { Metadata_Category : Category }.

Section Data.
Context {C : Carriers}.

(** [unstructured.Unstructured]: the type identifier and the names are
    read and written by the generator, the other fields are not. *)
Record Unstructured : Type := {
  u_GroupVersionKind : schema_GroupVersionKind;
  u_GetName : string;
  u_GetGenerateName : string;
  u_Object : Fields;
}.

Definition u_SetName (name : string) (u : Unstructured) : Unstructured :=
  {| u_GroupVersionKind := u_GroupVersionKind u;
     u_GetName := name;
     u_GetGenerateName := u_GetGenerateName u;
     u_Object := u_Object u |}.

Definition u_SetObject (f : Fields) (u : Unstructured) : Unstructured :=
  {| u_GroupVersionKind := u_GroupVersionKind u;
     u_GetName := u_GetName u;
     u_GetGenerateName := u_GetGenerateName u;
     u_Object := f |}.

Record UnstructuredWithMetadata : Type := {
  Object : Unstructured;
  Metadata_of : Metadata;
}.

(** [resource.Managed] *)
Record Managed : Type := {
  mg_GroupVersionKind : schema_GroupVersionKind;
  mg_GetName : string;
  mg_GetGenerateName : string;
  mg_Fields : Fields;
}.

Definition mg_SetGenerateName (name : string) (mg : Managed) : Managed :=
  {| mg_GroupVersionKind := mg_GroupVersionKind mg;
     mg_GetName := mg_GetName mg;
     mg_GetGenerateName := name;
     mg_Fields := mg_Fields mg |}.

Record runtime_RawExtension : Type := { Raw : list Byte.byte }.

Record xpv1_PatchSet : Type := {
  ps_Name : string;
  ps_Patches : list xpv1_Patch;
}.

Record xpv1_ComposedTemplate : Type := {
  Name : option string;
  Base : runtime_RawExtension;
  Patches : list xpv1_Patch;
  ct_Fields : Fields;
}.

Definition ct_SetBase (b : runtime_RawExtension) (c : xpv1_ComposedTemplate)
  : xpv1_ComposedTemplate :=
  {| Name := Name c; Base := b; Patches := Patches c;
     ct_Fields := ct_Fields c |}.

Definition ct_SetPatches (ps : list xpv1_Patch) (c : xpv1_ComposedTemplate)
  : xpv1_ComposedTemplate :=
  {| Name := Name c; Base := Base c; Patches := ps;
     ct_Fields := ct_Fields c |}.

Definition ct_SetName (n : option string) (c : xpv1_ComposedTemplate)
  : xpv1_ComposedTemplate :=
  {| Name := n; Base := Base c; Patches := Patches c;
     ct_Fields := ct_Fields c |}.

Record xpv1_Composition : Type := {
  c_GetName : string;
  Spec_PatchSets : list xpv1_PatchSet;
  Spec_Resources : list xpv1_ComposedTemplate;
  c_Fields : Fields;
}.

Definition c_SetResources (rs : list xpv1_ComposedTemplate)
    (c : xpv1_Composition) : xpv1_Composition :=
  {| c_GetName := c_GetName c; Spec_PatchSets := Spec_PatchSets c;
     Spec_Resources := rs; c_Fields := c_Fields c |}.

(** The [metav1.Object] that [toConfiguration] decodes: a Configuration of
    one of the two API versions. *)
Inductive metav1_Object : Type :=
| Configuration_v1 (c : xpmetav1_Configuration)
| Configuration_v1alpha1 (c : xpmetav1alpha1_Configuration).

(** The argument of [ToSanitizedUnstructured], of Go type [any]. *)
Inductive any : Type :=
| any_Managed (mg : Managed)
| any_Object (conf : option metav1_Object)
| any_Composition (comp : xpv1_Composition).

(** *** Converters: the interfaces of the registry.  Their methods run
    plug-in code: they act on the world and may panic.  A method that
    rewrites its argument in place returns the rewritten argument. *)

(** [Resource] is handed the pointer [mg]: the managed resource it points
    to, as the method left it, comes back before the results. *)
Record ResourceConverter : Type := {
  Resource : option Managed →
             Eff World (option Managed * list Managed * option error);
}.

Record PatchSetConverter : Type := {
  PatchSets : gmap string xpv1_PatchSet →
              Eff World (gmap string xpv1_PatchSet * option error);
}.

Record ComposedTemplateConverter : Type := {
  ComposedTemplate : xpv1_ComposedTemplate → list xpv1_ComposedTemplate →
                     Eff World (list xpv1_ComposedTemplate * option error);
}.

Record ConfigurationConverter : Type := {
  ConfigurationV1 : xpmetav1_Configuration →
                    Eff World (xpmetav1_Configuration * option error);
  ConfigurationV1Alpha1 : xpmetav1alpha1_Configuration →
                    Eff World (xpmetav1alpha1_Configuration * option error);
}.

Record patchSetConverter : Type := {
  ps_re : option Regexp;
  ps_converter : option PatchSetConverter;
}.

Record configurationConverter : Type := {
  conf_re : option Regexp;
  conf_converter : option ConfigurationConverter;
}.

(** A key of a Go map that holds a nil converter reads as an absent key. *)
Record Registry : Type := {
  resourceConverters : gmap schema_GroupVersionKind ResourceConverter;
  templateConverters : gmap schema_GroupVersionKind ComposedTemplateConverter;
  patchSetConverters : list patchSetConverter;
  configurationConverters : list configurationConverter;
  scheme : runtime_Scheme;
}.

(** *** The plan and the generator *)

Record Plan : Type := {
  Plan_Version : string;
  Spec_stepMap : gmap step Step;
  Spec_Steps : list Step;
}.

(** The fields of [PlanGenerator] that generation only reads; the source
    is handed to [GeneratePlan], the [Plan] field and the target are in
    the [State] below. *)
Record PlanGenerator : Type := {
  registry : Registry;
  ErrorOnInvalidPatchSchema : bool;
  SkipGVKs : list schema_GroupVersionKind;
}.

Definition PlanGeneratorOption : Type := PlanGenerator → PlanGenerator.

Definition WithErrorOnInvalidPatchSchema (e : bool) : PlanGeneratorOption :=
  λ pg, {| registry := registry pg;
           ErrorOnInvalidPatchSchema := e;
           SkipGVKs := SkipGVKs pg |}.

Definition WithSkipGVKs (gvk : list schema_GroupVersionKind)
  : PlanGeneratorOption :=
  λ pg, {| registry := registry pg;
           ErrorOnInvalidPatchSchema := ErrorOnInvalidPatchSchema pg;
           SkipGVKs := gvk |}.

Definition NewPlanGenerator (registry : Registry)
    (opts : list PlanGeneratorOption) : PlanGenerator :=
  foldl (λ pg o, o pg)
        {| registry := registry; ErrorOnInvalidPatchSchema := false;
           SkipGVKs := [] |} opts.

(** What generation writes: the [Plan] field of the generator, and the
    world behind its collaborators. *)
Record State : Type := {
  pg_Plan : Plan;
  world : World;
}.

Definition liftW {A : Type} (m : Eff World A) : Eff State A :=
  λ st, match m (world st) with
        | (r, w) => (r, {| pg_Plan := pg_Plan st; world := w |})
        end.

(** The [Source] of manifests, by what its iterator answers: each element
    is one round of the loop of [convert]; the empty list is a source
    whose [HasNext] answers false. *)
Inductive SourceStep : Type :=
| HasNext_fails (err : error)
| Next_fails (err : error)
| Next_yields (o : UnstructuredWithMetadata).

Definition Source : Type := list SourceStep.
End Data.

(** ** Collaborators

    The functions of package [migration] that are defined outside the
    file of the generator, and the library calls of the generator.  The
    conversion helpers are pure; the methods of the generator that add
    steps act on the plan and on the world (the target sink) and may
    panic.

    Modelled from the spec: [removeInvalidPatches] is not among the
    sources; by section 4.6 it removes the patches of the template that do
    not conform to the source or target schema, or fails, so it answers
    with the patches that the template keeps, or with an error. *)
Class Collaborators {C : Carriers} : Type := {
  toManagedResource : runtime_Scheme → Unstructured →
                      option Managed * bool * option error;
  ToSanitizedUnstructured : any → Unstructured;
  toConfiguration : Unstructured → result metav1_Object;
  metav1_GetName : metav1_Object → string;
  getVersionedName : Unstructured → string;
  convertToComposition : Unstructured → result xpv1_Composition;
  convertToMap : list xpv1_PatchSet → gmap string xpv1_PatchSet;
  convertFromMap : gmap string xpv1_PatchSet → list xpv1_PatchSet → bool →
                   list xpv1_PatchSet;
  getConvertedPatchSetNames : list xpv1_PatchSet → list xpv1_PatchSet →
                              list string;
  (** [fieldpath.Pave(o).SetValue(path, patchSets)] on the fields of [o] *)
  fieldpath_SetValue : Fields → string → list xpv1_PatchSet →
                       Fields * option error;
  FromRawExtension : runtime_RawExtension → result Unstructured;
  MarshalJSON : Unstructured → result (list Byte.byte);
  removeInvalidPatches : PlanGenerator → schema_GroupVersionKind →
                         schema_GroupVersionKind → list xpv1_PatchSet →
                         xpv1_ComposedTemplate → list string →
                         result (list xpv1_Patch);
  rand_String : nat → Eff World string;
  stepEditConfiguration : Unstructured → UnstructuredWithMetadata → string →
                          Eff State (option error);
  stepNewComposition : UnstructuredWithMetadata → Eff State (option error);
  stepPauseComposite : UnstructuredWithMetadata →
                       Eff State (UnstructuredWithMetadata * option error);
  stepNewManagedResource : UnstructuredWithMetadata →
                       Eff State (UnstructuredWithMetadata * option error);
  stepStartManagedResource : UnstructuredWithMetadata →
                       Eff State (UnstructuredWithMetadata * option error);
  addStepsForManagedResource : UnstructuredWithMetadata →
                               Eff State (option error);
  stepEditComposites : list UnstructuredWithMetadata →
                       gmap corev1_ObjectReference
                            (list UnstructuredWithMetadata) →
                       gmap string string → Eff State (option error);
  stepStartComposites : list UnstructuredWithMetadata →
                        Eff State (option error);
  stepEditClaims : list UnstructuredWithMetadata → gmap string string →
                   Eff State (option error);
}.

Section Generator.
Context {C : Carriers} {X : Collaborators}.

(** *** [isGVKSkipped] *)

Definition gvkMatches (gvk sourceGVK : schema_GroupVersionKind) : bool :=
  ((String.length (Group gvk) =? 0)%nat
     || String.eqb (Group gvk) (Group sourceGVK))
  && ((String.length (Version gvk) =? 0)%nat
        || String.eqb (Version gvk) (Version sourceGVK))
  && ((String.length (Kind gvk) =? 0)%nat
        || String.eqb (Kind gvk) (Kind sourceGVK)).

Fixpoint isGVKSkipped_range (skip : list schema_GroupVersionKind)
    (sourceGVK : schema_GroupVersionKind) : bool :=
  match skip with
  | [] => false
  | gvk :: skip' =>
      if gvkMatches gvk sourceGVK then true
      else isGVKSkipped_range skip' sourceGVK
  end.

Definition isGVKSkipped (pg : PlanGenerator)
    (sourceGVK : schema_GroupVersionKind) : bool :=
  isGVKSkipped_range (SkipGVKs pg) sourceGVK.

(** *** [setDefaultsOnTargetTemplate]

    [sourceNameUsed] and [target] are pointers in the source: their
    values after the call are returned before the error. *)
Definition setDefaultsOnTargetTemplate (pg : PlanGenerator)
    (sourceName : option string) (sourceNameUsed : bool)
    (gvkSource gvkTarget : schema_GroupVersionKind)
    (target : xpv1_ComposedTemplate) (patchSets : list xpv1_PatchSet)
    (convertedPS : list string)
  : Eff World (bool * xpv1_ComposedTemplate * option error) :=
  if isGVKSkipped pg gvkSource then ret (sourceNameUsed, target, None)
  else
    match removeInvalidPatches pg gvkSource gvkTarget patchSets target
                               convertedPS with
    | Failure err =>
        ret (sourceNameUsed, target,
             errors_Wrap (Some err)
               "failed to set the defaults on the migration target composed template")
    | Success patches =>
        let target := ct_SetPatches patches target in
        if sourceNameUsed
           || negb (String.eqb (Kind gvkSource) (Kind gvkTarget))
        then
          match sourceName with
          | Some name =>
              if (0 <? String.length name)%nat then
                let* suffix := rand_String 5 in
                let targetName := name +:+ "-" +:+ suffix in
                ret (sourceNameUsed, ct_SetName (Some targetName) target,
                     None)
              else ret (sourceNameUsed, target, None)
          | None => ret (sourceNameUsed, target, None)
          end
        else ret (true, target, None)
    end.

(** *** [assertGVK] and [assertMetadataName] *)

Fixpoint assertGVK (resources : list Managed) : option error :=
  match resources with
  | [] => None
  | r :: resources' =>
      if IsZero (mg_GroupVersionKind r) then Some (errors_New errMissingGVK)
      else assertGVK resources'
  end.

Fixpoint assertMetadataName (parentName : string) (resources : list Managed)
  : list Managed :=
  match resources with
  | [] => []
  | r :: resources' =>
      (if negb (String.length (mg_GetName r) =? 0)%nat
          || negb (String.length (mg_GetGenerateName r) =? 0)%nat
       then r
       else mg_SetGenerateName (parentName +:+ "-") r)
      :: assertMetadataName parentName resources'
  end.

(** *** [convertResource]

    [mg] is a pointer that the converter is handed: [mg.GetName()] is read
    after the converter ran, from the resource as the converter left
    it. *)
Definition convertResource (pg : PlanGenerator)
    (o : UnstructuredWithMetadata) (compositionContext : bool)
  : Eff World (list UnstructuredWithMetadata * bool * option error) :=
  let gvk := u_GroupVersionKind (Object o) in
  match resourceConverters (registry pg) !! gvk with
  | None => ret ([o], false, None)
  | Some conv =>
      let '(mg, _, err) :=
        toManagedResource (scheme (registry pg)) (Object o) in
      match err with
      | Some _ => ret ([], false, errors_Wrap err errResourceMigrate)
      | None =>
          let* (mg', resources, err) := Resource conv mg in
          let mg := rewritten mg mg' in
          match err with
          | Some _ => ret ([], false, errors_Wrap err errResourceMigrate)
          | None =>
              match assertGVK resources with
              | Some err =>
                  ret ([], true, errors_Wrap (Some err) errResourceMigrate)
              | None =>
                  let* resources :=
                    (if negb compositionContext then
                       match mg with
                       | Some m =>
                           ret (assertMetadataName (mg_GetName m) resources)
                       | None => panic
                       end
                     else ret resources) in
                  ret (map (λ mg,
                          {| Object :=
                               ToSanitizedUnstructured (any_Managed mg);
                             Metadata_of := Metadata_of o |}) resources,
                       true, None)
              end
          end
      end
  end.

(** *** [convertConfiguration]

    The loop over [pg.registry.configurationConverters]; [conf] and
    [isConverted] are the variables of the same name. *)
Fixpoint convertConfiguration_range (convs : list configurationConverter)
    (o : UnstructuredWithMetadata) (conf : option metav1_Object)
    (isConverted : bool)
  : Eff World (option metav1_Object * bool * option error) :=
  match convs with
  | [] => ret (conf, isConverted, None)
  | confConv :: convs' =>
      match conf_re confConv, conf_converter confConv with
      | Some re, Some converter =>
          if negb (MatchString re (u_GetName (Object o))) then
            convertConfiguration_range convs' o conf isConverted
          else
            match toConfiguration (Object o) with
            | Failure err => ret (None, false, Some err)
            | Success conf =>
                let* (conf, err) :=
                  (if String.eqb
                        (Version (u_GroupVersionKind (Object o)))
                        "v1alpha1"
                   then
                     match conf with
                     | Configuration_v1alpha1 c =>
                         let* (c, err) :=
                           ConfigurationV1Alpha1 converter c in
                         ret (Configuration_v1alpha1 c, err)
                     | _ => panic
                     end
                   else
                     match conf with
                     | Configuration_v1 c =>
                         let* (c, err) := ConfigurationV1 converter c in
                         ret (Configuration_v1 c, err)
                     | _ => panic
                     end) in
                match err with
                | Some _ =>
                    ret (None, false,
                         errors_Wrap err
                           ("failed to call converter on Configuration: "
                              +:+ metav1_GetName conf))
                | None =>
                    convertConfiguration_range convs' o (Some conf) true
                end
            end
      | _, _ => convertConfiguration_range convs' o conf isConverted
      end
  end.

Definition convertConfiguration (pg : PlanGenerator)
    (o : UnstructuredWithMetadata)
  : Eff World (option UnstructuredWithMetadata * bool * option error) :=
  let* (conf, isConverted, err) :=
    convertConfiguration_range (configurationConverters (registry pg)) o
                               None false in
  match err with
  | Some _ => ret (None, false, err)
  | None =>
      ret (Some {| Object := ToSanitizedUnstructured (any_Object conf);
                   Metadata_of := Metadata_of o |},
           isConverted, None)
  end.

(** *** [convertPatchSets]

    [o.Object.Object] is a Go map: what [SetValue] writes into it is seen
    by the caller, so the envelope comes back before the results. *)
Fixpoint convertPatchSets_range (convs : list patchSetConverter)
    (o : UnstructuredWithMetadata) (converted : list string)
  : Eff World (UnstructuredWithMetadata * list string * option error) :=
  match convs with
  | [] => ret (o, converted, None)
  | psConv :: convs' =>
      match ps_re psConv, ps_converter psConv with
      | Some re, Some converter =>
          if negb (MatchString re (u_GetName (Object o))) then
            convertPatchSets_range convs' o converted
          else
            match convertToComposition (Object o) with
            | Failure err =>
                ret (o, [], errors_Wrap (Some err) errUnstructuredConvert)
            | Success c =>
                let oldPatchSets := Spec_PatchSets c in
                let psMap := convertToMap (Spec_PatchSets c) in
                let* (psMap, err) := PatchSets converter psMap in
                match err with
                | Some _ =>
                    ret (o, [],
                         errors_Wrap err
                           ("failed to call PatchSet converter on Composition: "
                              +:+ c_GetName c))
                | None =>
                    let newPatchSets :=
                      convertFromMap psMap oldPatchSets true in
                    let converted :=
                      converted ++ getConvertedPatchSetNames newPatchSets
                                                             oldPatchSets in
                    let '(fields, err) :=
                      fieldpath_SetValue (u_Object (Object o))
                                         "spec.patchSets" newPatchSets in
                    let o := {| Object := u_SetObject fields (Object o);
                                Metadata_of := Metadata_of o |} in
                    match err with
                    | Some _ =>
                        ret (o, [],
                             errors_Wrap err
                               ("failed to set converted patch sets on Composition: "
                                  +:+ c_GetName c))
                    | None => convertPatchSets_range convs' o converted
                    end
                end
            end
      | _, _ => convertPatchSets_range convs' o converted
      end
  end.

Definition convertPatchSets (pg : PlanGenerator)
    (o : UnstructuredWithMetadata)
  : Eff World (UnstructuredWithMetadata * list string * option error) :=
  convertPatchSets_range (patchSetConverters (registry pg)) o [].

(** *** [convertComposition]

    The inner loop, over the envelopes [converted] that one composed
    template [cmp] was converted to. *)
Fixpoint convertComposition_targets (pg : PlanGenerator)
    (cmp : xpv1_ComposedTemplate) (gvk : schema_GroupVersionKind)
    (patchSets : list xpv1_PatchSet) (convertedPS : list string)
    (converted : list UnstructuredWithMetadata)
    (cmps : list xpv1_ComposedTemplate) (sourceNameUsed : bool)
  : Eff World (list xpv1_ComposedTemplate * option error) :=
  match converted with
  | [] => ret (cmps, None)
  | u :: converted' =>
      match MarshalJSON (Object u) with
      | Failure err =>
          ret ([], errors_Wrap (Some err) errUnstructuredMarshal)
      | Success buff =>
          let c := ct_SetBase {| Raw := buff |} cmp in
          let* (sourceNameUsed, c, err) :=
            setDefaultsOnTargetTemplate pg (Name cmp) sourceNameUsed gvk
              (u_GroupVersionKind (Object u)) c patchSets convertedPS in
          match err with
          | Some _ => ret ([], errors_Wrap err errComposedTemplateMigrate)
          | None =>
              convertComposition_targets pg cmp gvk patchSets convertedPS
                converted' (cmps ++ [c]) sourceNameUsed
          end
      end
  end.

(** The outer loop, over [comp.Spec.Resources]. *)
Fixpoint convertComposition_range (pg : PlanGenerator)
    (o : UnstructuredWithMetadata) (patchSets : list xpv1_PatchSet)
    (convertedPS : list string) (resources : list xpv1_ComposedTemplate)
    (targetResources : list xpv1_ComposedTemplate) (isConverted : bool)
  : Eff World (list xpv1_ComposedTemplate * bool * option error) :=
  match resources with
  | [] => ret (targetResources, isConverted, None)
  | cmp :: resources' =>
      match FromRawExtension (Base cmp) with
      | Failure err =>
          ret ([], false,
               errors_Wrap (Some err)
                 (errCompositionMigrateFmt (u_GetName (Object o))))
      | Success u =>
          let gvk := u_GroupVersionKind u in
          let* (converted, ok, err) :=
            convertResource pg {| Object := u;
                                  Metadata_of := Metadata_of o |} true in
          match err with
          | Some _ => ret ([], false, errors_Wrap err errComposedTemplateBase)
          | None =>
              let isConverted := isConverted || ok in
              let* (cmps, err) :=
                convertComposition_targets pg cmp gvk patchSets convertedPS
                  converted [] false in
              match err with
              | Some _ => ret ([], false, err)
              | None =>
                  let* (cmps, err) :=
                    match templateConverters (registry pg) !! gvk with
                    | Some conv =>
                        let* (cmps', err) :=
                          ComposedTemplate conv cmp cmps in
                        ret (inplace cmps cmps', err)
                    | None => ret (cmps, None)
                    end in
                  match err with
                  | Some _ =>
                      ret ([], false,
                           errors_Wrap err errComposedTemplateMigrate)
                  | None =>
                      convertComposition_range pg o patchSets convertedPS
                        resources' (targetResources ++ cmps) isConverted
                  end
              end
          end
      end
  end.

Definition convertComposition (pg : PlanGenerator)
    (o : UnstructuredWithMetadata)
  : Eff World (UnstructuredWithMetadata *
               option UnstructuredWithMetadata * bool * option error) :=
  let* (o, convertedPS, err) := convertPatchSets pg o in
  match err with
  | Some _ =>
      ret (o, None, false, errors_Wrap err "failed to convert patch sets")
  | None =>
      match convertToComposition (Object o) with
      | Failure err =>
          ret (o, None, false,
               errors_Wrap (Some err) errUnstructuredConvert)
      | Success comp =>
          let* (targetResources, isConverted, err) :=
            convertComposition_range pg o (Spec_PatchSets comp) convertedPS
              (Spec_Resources comp) [] false in
          match err with
          | Some _ => ret (o, None, false, err)
          | None =>
              let comp := c_SetResources targetResources comp in
              ret (o,
                   Some {| Object :=
                             ToSanitizedUnstructured (any_Composition comp);
                           Metadata_of := Metadata_of o |},
                   isConverted, None)
          end
      end
  end.

(** *** [convert]

    The four local accumulators of [convert]. *)
Record Locals : Type := {
  convertedMR :
    gmap corev1_ObjectReference (list UnstructuredWithMetadata);
  convertedComposition : gmap string string;
  composites : list UnstructuredWithMetadata;
  claims : list UnstructuredWithMetadata;
}.

Definition set_convertedMR (k : corev1_ObjectReference)
    (v : list UnstructuredWithMetadata) (l : Locals) : Locals :=
  {| convertedMR := <[k := v]> (convertedMR l);
     convertedComposition := convertedComposition l;
     composites := composites l; claims := claims l |}.

Definition set_convertedComposition (k v : string) (l : Locals) : Locals :=
  {| convertedMR := convertedMR l;
     convertedComposition := <[k := v]> (convertedComposition l);
     composites := composites l; claims := claims l |}.

Definition append_composites (o : UnstructuredWithMetadata) (l : Locals)
  : Locals :=
  {| convertedMR := convertedMR l;
     convertedComposition := convertedComposition l;
     composites := composites l ++ [o]; claims := claims l |}.

Definition append_claims (o : UnstructuredWithMetadata) (l : Locals)
  : Locals :=
  {| convertedMR := convertedMR l;
     convertedComposition := convertedComposition l;
     composites := composites l; claims := claims l ++ [o] |}.

(** The loop over the [targets] of a converted managed resource; each
    step is handed a pointer to a copy [tu] of the target. *)
Fixpoint convert_targets (targets : list UnstructuredWithMetadata)
  : Eff State (option error) :=
  match targets with
  | [] => ret None
  | tu :: targets' =>
      let* (tu, err) := stepNewManagedResource tu in
      match err with
      | Some _ => ret (errors_Wrap err errResourceMigrate)
      | None =>
          let* (tu, err) := stepStartManagedResource tu in
          match err with
          | Some _ => ret (errors_Wrap err errResourceMigrate)
          | None => convert_targets targets'
          end
      end
  end.

(** The statement after the [switch]; a non-nil error leaves [convert]. *)
Definition convert_addSteps (o : UnstructuredWithMetadata) (l : Locals)
  : Eff State (Locals * option error) :=
  let* err := addStepsForManagedResource o in
  ret (l, err).

(** One round of the loop of [convert], for the object [o] that the
    source yielded; a non-nil error leaves [convert]. *)
Definition convert_object (pg : PlanGenerator)
    (o : UnstructuredWithMetadata) (l : Locals)
  : Eff State (Locals * option error) :=
  let gvk := u_GroupVersionKind (Object o) in
  if bool_decide (gvk = xpmetav1_ConfigurationGroupVersionKind)
     || bool_decide (gvk = xpmetav1alpha1_ConfigurationGroupVersionKind)
  then
    let* (target, converted, err) := liftW (convertConfiguration pg o) in
    match err with
    | Some _ =>
        ret (l, errors_Wrap err
                  (errConfigurationMigrateFmt (u_GetName (Object o))))
    | None =>
        let* err :=
          (if converted then
             match target with
             | Some target =>
                 stepEditConfiguration (Object o) target
                   (getVersionedName (Object target))
             | None => panic
             end
           else ret None) in
        match err with
        | Some _ => ret (l, err)
        | None => convert_addSteps o l
        end
    end
  else if bool_decide (gvk = xpv1_CompositionGroupVersionKind) then
    let* (o, target, converted, err) := liftW (convertComposition pg o) in
    match err with
    | Some _ =>
        ret (l, errors_Wrap err
                  (errCompositionMigrateFmt (u_GetName (Object o))))
    | None =>
        if converted then
          match target with
          | Some target =>
              let migratedName := u_GetName (Object o) +:+ "-migrated" in
              let l :=
                set_convertedComposition (u_GetName (Object o))
                                         migratedName l in
              let target :=
                {| Object := u_SetName migratedName (Object target);
                   Metadata_of := Metadata_of target |} in
              let* err := stepNewComposition target in
              match err with
              | Some _ =>
                  ret (l, errors_Wrap err
                            (errCompositionMigrateFmt
                               (u_GetName (Object o))))
              | None => convert_addSteps o l
              end
          | None => panic
          end
        else convert_addSteps o l
    end
  else if bool_decide (Metadata_Category (Metadata_of o) = CategoryComposite)
  then
    let* (o, err) := stepPauseComposite o in
    match err with
    | Some _ => ret (l, errors_Wrap err errCompositePause)
    | None => ret (append_composites o l, None)
    end
  else if bool_decide (Metadata_Category (Metadata_of o) = CategoryClaim)
  then ret (append_claims o l, None)
  else
    let* (targets, converted, err) := liftW (convertResource pg o false) in
    match err with
    | Some _ => ret (l, errors_Wrap err errResourceMigrate)
    | None =>
        if converted then
          let l :=
            set_convertedMR
              {| ref_Kind := Kind gvk;
                 ref_Name := u_GetName (Object o);
                 ref_APIVersion := GroupVersion_String gvk |} targets l in
          let* err := convert_targets targets in
          match err with
          | Some _ => ret (l, err)
          | None => convert_addSteps o l
          end
        else
          let '(_, ok, _) :=
            toManagedResource (scheme (registry pg)) (Object o) in
          if ok then
            let* (o, err) := stepStartManagedResource o in
            match err with
            | Some _ => ret (l, errors_Wrap err errResourceMigrate)
            | None => convert_addSteps o l
            end
          else convert_addSteps o l
    end.

Fixpoint convert_range (pg : PlanGenerator) (source : Source) (l : Locals)
  : Eff State (Locals * option error) :=
  match source with
  | [] => ret (l, None)
  | HasNext_fails err :: _ =>
      ret (l, errors_Wrap (Some err) errSourceHasNext)
  | Next_fails err :: _ => ret (l, errors_Wrap (Some err) errSourceNext)
  | Next_yields o :: source' =>
      let* (l, err) := convert_object pg o l in
      match err with
      | Some _ => ret (l, err)
      | None => convert_range pg source' l
      end
  end.

Definition convert (pg : PlanGenerator) (source : Source)
  : Eff State (option error) :=
  let l := {| convertedMR := ∅; convertedComposition := ∅;
              composites := []; claims := [] |} in
  let* (l, err) := convert_range pg source l in
  match err with
  | Some _ => ret err
  | None =>
      let* err :=
        stepEditComposites (composites l) (convertedMR l)
                           (convertedComposition l) in
      match err with
      | Some _ => ret (errors_Wrap err errCompositesEdit)
      | None =>
          let* err := stepStartComposites (composites l) in
          match err with
          | Some _ => ret (errors_Wrap err errCompositesStart)
          | None =>
              let* err :=
                stepEditClaims (claims l) (convertedComposition l) in
              match err with
              | Some _ => ret (errors_Wrap err errClaimsEdit)
              | None => ret None
              end
          end
      end
  end.

(** *** [GeneratePlan]

    [defer d body]: the deferred call [d] runs when [body] leaves, by a
    return or by a panic, after the results of [body] are set. *)
Definition defer {A : Type} (d : State → State) (body : Eff State A)
  : Eff State A :=
  λ st, match body st with
        | (r, st') => (r, d st')
        end.

Section GeneratePlan.
(** [pg.commitSteps], a method of the generator outside this file. *)
Variable commitSteps : State → State.

Definition GeneratePlan_init (st : State) : State :=
  {| pg_Plan := {| Plan_Version := versionV010;
                   Spec_stepMap := ∅;
                   Spec_Steps := Spec_Steps (pg_Plan st) |};
     world := world st |}.

Definition GeneratePlan (pg : PlanGenerator) (source : Source)
  : Eff State (option error) :=
  λ st,
    defer commitSteps
      (let* err := convert pg source in
       ret (errors_Wrap err errPlanGeneration))
      (GeneratePlan_init st).
End GeneratePlan.
End Generator.

(** ** The wording of the specification

    The predicates and the reference functions that the properties below
    compare the generator with. *)
Section Specification.
Context {C : Carriers} {X : Collaborators}.

(** A skip-list entry matches a type identifier when each of its
    non-empty components equals the component of the identifier. *)
Definition entry_matches (entry identifier : schema_GroupVersionKind)
  : Prop :=
  (Group entry = "" ∨ Group entry = Group identifier)
  ∧ (Version entry = "" ∨ Version entry = Version identifier)
  ∧ (Kind entry = "" ∨ Kind entry = Kind identifier).

(** A freshly generated template name: the original name, a dash and a
    suffix. *)
Definition generated_name (original : string) (c : xpv1_ComposedTemplate)
  : Prop :=
  ∃ suffix : string, Name c = Some (original +:+ "-" +:+ suffix).

(** [draws n]: the strings that [n] successive calls of [rand.String(5)]
    return, in the order of the calls. *)
Fixpoint draws (n : nat) : Eff World (list string) :=
  match n with
  | 0 => ret []
  | S n' =>
      let* suffix := rand_String 5 in
      let* suffixes := draws n' in
      ret (suffix :: suffixes)
  end.

(** The names of the templates of [cmps] that do not carry the name
    [original], in the order of [cmps]. *)
Definition other_names (original : string)
    (cmps : list xpv1_ComposedTemplate) : list (option string) :=
  filter (λ name, name ≠ Some original) (Name <$> cmps).

(** An object that the main pass converts as a plain resource: its type
    identifier is none of the three that the [switch] of [convert] names,
    and it is neither a composite nor a claim. *)
Definition plain_resource (o : UnstructuredWithMetadata) : Prop :=
  u_GroupVersionKind (Object o) ≠ xpmetav1_ConfigurationGroupVersionKind
  ∧ u_GroupVersionKind (Object o)
    ≠ xpmetav1alpha1_ConfigurationGroupVersionKind
  ∧ u_GroupVersionKind (Object o) ≠ xpv1_CompositionGroupVersionKind
  ∧ Metadata_Category (Metadata_of o) ≠ CategoryComposite
  ∧ Metadata_Category (Metadata_of o) ≠ CategoryClaim.

(** The naming rule of a fan-out as section 4.6 words it: the first
    produced template keeps the name of the source template [cmp]; every
    later one, and every one whose kind differs from the kind of the
    source, gets a generated name. *)
Definition naming_as_worded (original : string)
    (gvk : schema_GroupVersionKind)
    (converted : list UnstructuredWithMetadata)
    (cmps : list xpv1_ComposedTemplate) : Prop :=
  (∀ c, cmps !! 0 = Some c → Name c = Some original)
  ∧ (∀ i c, 0 < i → cmps !! i = Some c → generated_name original c)
  ∧ (∀ i c u, cmps !! i = Some c → converted !! i = Some u →
       Kind (u_GroupVersionKind (Object u)) ≠ Kind gvk →
       generated_name original c).

(** The position of the produced template that keeps the name of the
    source: the first one whose kind is the kind of the source. *)
Definition keeps_source_name (gvk : schema_GroupVersionKind)
    (converted : list UnstructuredWithMetadata) (i : nat) : Prop :=
  (∃ u, converted !! i = Some u
        ∧ Kind (u_GroupVersionKind (Object u)) = Kind gvk)
  ∧ (∀ j u, j < i → converted !! j = Some u →
       Kind (u_GroupVersionKind (Object u)) ≠ Kind gvk).

(** The converter of a registry entry, when the entry applies to an
    object called [name]: a pattern, a converter, and a match. *)
Definition applicable (name : string) (confConv : configurationConverter)
  : option ConfigurationConverter :=
  match conf_re confConv, conf_converter confConv with
  | Some re, Some converter =>
      if MatchString re name then Some converter else None
  | _, _ => None
  end.

Definition matchingConverters (pg : PlanGenerator)
    (o : UnstructuredWithMetadata) : list ConfigurationConverter :=
  omap (applicable (u_GetName (Object o)))
       (configurationConverters (registry pg)).

(** One invocation of a configuration converter on a decoded
    configuration: the hook of the declared version of [o]. *)
Definition invoke (o : UnstructuredWithMetadata)
    (converter : ConfigurationConverter) (conf : metav1_Object)
  : Eff World (metav1_Object * option error) :=
  if String.eqb (Version (u_GroupVersionKind (Object o))) "v1alpha1" then
    match conf with
    | Configuration_v1alpha1 c =>
        let* (c, err) := ConfigurationV1Alpha1 converter c in
        ret (Configuration_v1alpha1 c, err)
    | _ => panic
    end
  else
    match conf with
    | Configuration_v1 c =>
        let* (c, err) := ConfigurationV1 converter c in
        ret (Configuration_v1 c, err)
    | _ => panic
    end.

Definition invoke_failed (conf : metav1_Object) (err : option error)
  : option error :=
  errors_Wrap err
    ("failed to call converter on Configuration: " +:+ metav1_GetName conf).

(** Section 4.4 as worded: the converters run one after the other against
    the same decoded object, each seeing what the previous ones wrote. *)
Fixpoint invoke_on_same_object (o : UnstructuredWithMetadata)
    (converters : list ConfigurationConverter) (conf : metav1_Object)
  : Eff World (option metav1_Object * bool * option error) :=
  match converters with
  | [] => ret (Some conf, true, None)
  | converter :: converters' =>
      let* (conf, err) := invoke o converter conf in
      match err with
      | Some _ => ret (None, false, invoke_failed conf err)
      | None => invoke_on_same_object o converters' conf
      end
  end.

Definition sanitized (o : UnstructuredWithMetadata)
    (conf : option metav1_Object) : option UnstructuredWithMetadata :=
  Some {| Object := ToSanitizedUnstructured (any_Object conf);
          Metadata_of := Metadata_of o |}.

Definition convertConfiguration_as_worded (pg : PlanGenerator)
    (o : UnstructuredWithMetadata)
  : Eff World (option UnstructuredWithMetadata * bool * option error) :=
  match matchingConverters pg o with
  | [] => ret (sanitized o None, false, None)
  | converters =>
      match toConfiguration (Object o) with
      | Failure err => ret (None, false, Some err)
      | Success conf =>
          let* (conf, isConverted, err) :=
            invoke_on_same_object o converters conf in
          match err with
          | Some _ => ret (None, false, err)
          | None => ret (sanitized o conf, isConverted, None)
          end
      end
  end.

(** What the generator does: every converter runs against a decoding of
    its own of the object; [conf] is the configuration that the last
    converter left. *)
Fixpoint invoke_on_fresh_objects (o : UnstructuredWithMetadata)
    (converters : list ConfigurationConverter)
    (conf : option metav1_Object) (isConverted : bool)
  : Eff World (option metav1_Object * bool * option error) :=
  match converters with
  | [] => ret (conf, isConverted, None)
  | converter :: converters' =>
      match toConfiguration (Object o) with
      | Failure err => ret (None, false, Some err)
      | Success fresh =>
          let* (conf, err) := invoke o converter fresh in
          match err with
          | Some _ => ret (None, false, invoke_failed conf err)
          | None => invoke_on_fresh_objects o converters' (Some conf) true
          end
      end
  end.

(** The composed templates of a composition whose base has a registered
    resource converter. *)
Definition base_has_converter (pg : PlanGenerator)
    (cmp : xpv1_ComposedTemplate) : Prop :=
  ∃ u, FromRawExtension (Base cmp) = Success u
       ∧ is_Some (resourceConverters (registry pg)
                    !! u_GroupVersionKind u).

(** The converted flag of a composition as section 4.5 words it: true as
    soon as the patch-set converters changed a patch set of the
    composition or the base of one of its composed templates was
    converted. *)
Definition composition_flag_as_worded (pg : PlanGenerator)
    (o : UnstructuredWithMetadata) : Prop :=
  ∀ w w1 w' o' convertedPS target converted comp,
    convertPatchSets pg o w = (Returns (o', convertedPS, None), w1) →
    convertComposition pg o w
    = (Returns (o', target, converted, None), w') →
    convertToComposition (Object o') = Success comp →
    convertedPS ≠ []
    ∨ (∃ cmp, cmp ∈ Spec_Resources comp ∧ base_has_converter pg cmp) →
    converted = true.

(** [kept_by commits m]: running [m] leaves the observation [commits] of
    the state as it was. *)
Definition kept_by (commits : State → nat) {A : Type} (m : Eff State A)
  : Prop :=
  ∀ st, commits (m st).2 = commits st.

(** An observation of the state that counts commits: it reads the plan
    only, and the methods of the generator that add steps, which are
    outside the file of the generator, leave it as it was. *)
Definition kept_by_steps (commits : State → nat) : Prop :=
  (∀ st w, commits {| pg_Plan := pg_Plan st; world := w |} = commits st)
  ∧ (∀ o target name,
       kept_by commits (stepEditConfiguration o target name))
  ∧ (∀ target, kept_by commits (stepNewComposition target))
  ∧ (∀ o, kept_by commits (stepPauseComposite o))
  ∧ (∀ o, kept_by commits (stepNewManagedResource o))
  ∧ (∀ o, kept_by commits (stepStartManagedResource o))
  ∧ (∀ o, kept_by commits (addStepsForManagedResource o))
  ∧ (∀ composites convertedMR convertedComposition,
       kept_by commits
         (stepEditComposites composites convertedMR convertedComposition))
  ∧ (∀ composites, kept_by commits (stepStartComposites composites))
  ∧ (∀ claims convertedComposition,
       kept_by commits (stepEditClaims claims convertedComposition)).
End Specification.

(** ** A concrete generator

    A small instance of the carriers and of the collaborators, on which
    the functions of the generator evaluate: documents are either empty, a
    composition (patch sets, and composed templates given by their name
    and the kind of their base) or a configuration (its dependencies). *)

Inductive demo_doc : Type :=
| Doc_empty
| Doc_composition (patchSets : list (string * list nat))
                  (resources : list (option string * string))
| Doc_configuration (dependsOn : list string).

#[global] Instance demo_Carriers : Carriers := {|
  World := nat;
  Fields := demo_doc;
  xpv1_Patch := nat;
  xpmetav1_Configuration := list string;
  xpmetav1alpha1_Configuration := list string;
  runtime_Scheme := unit;
  step := nat;
  Step := list string;
|}.

Definition demo_toManaged (u : Unstructured) : Managed :=
  {| mg_GroupVersionKind := u_GroupVersionKind u;
     mg_GetName := u_GetName u;
     mg_GetGenerateName := u_GetGenerateName u;
     mg_Fields := u_Object u |}.

Definition demo_encodePatchSets (pss : list xpv1_PatchSet)
  : list (string * list nat) :=
  map (λ ps, (ps_Name ps, ps_Patches ps)) pss.

Definition demo_decodePatchSets (pss : list (string * list nat))
  : list xpv1_PatchSet :=
  map (λ p, {| ps_Name := p.1; ps_Patches := p.2 |}) pss.

Definition demo_ToSanitizedUnstructured (a : any) : Unstructured :=
  match a with
  | any_Managed mg =>
      {| u_GroupVersionKind := mg_GroupVersionKind mg;
         u_GetName := mg_GetName mg;
         u_GetGenerateName := mg_GetGenerateName mg;
         u_Object := mg_Fields mg |}
  | any_Object None =>
      {| u_GroupVersionKind := {| Group := ""; Version := ""; Kind := "" |};
         u_GetName := ""; u_GetGenerateName := ""; u_Object := Doc_empty |}
  | any_Object (Some (Configuration_v1 deps)) =>
      {| u_GroupVersionKind := xpmetav1_ConfigurationGroupVersionKind;
         u_GetName := "configuration"; u_GetGenerateName := "";
         u_Object := Doc_configuration deps |}
  | any_Object (Some (Configuration_v1alpha1 deps)) =>
      {| u_GroupVersionKind := xpmetav1alpha1_ConfigurationGroupVersionKind;
         u_GetName := "configuration"; u_GetGenerateName := "";
         u_Object := Doc_configuration deps |}
  | any_Composition comp =>
      {| u_GroupVersionKind := xpv1_CompositionGroupVersionKind;
         u_GetName := c_GetName comp; u_GetGenerateName := "";
         u_Object :=
           Doc_composition
             (demo_encodePatchSets (Spec_PatchSets comp))
             (map (λ c, (Name c, String.string_of_list_byte (Raw (Base c))))
                  (Spec_Resources comp)) |}
  end.

Definition demo_toConfiguration (u : Unstructured) : result metav1_Object :=
  match u_Object u with
  | Doc_configuration deps =>
      if String.eqb (Version (u_GroupVersionKind u)) "v1alpha1"
      then Success (Configuration_v1alpha1 deps)
      else Success (Configuration_v1 deps)
  | _ => Failure (errors_New "not a configuration")
  end.

Definition demo_convertToComposition (u : Unstructured)
  : result xpv1_Composition :=
  match u_Object u with
  | Doc_composition pss rs =>
      Success
        {| c_GetName := u_GetName u;
           Spec_PatchSets := demo_decodePatchSets pss;
           Spec_Resources :=
             map (λ r, {| Name := r.1;
                          Base := {| Raw := String.list_byte_of_string r.2 |};
                          Patches := []; ct_Fields := Doc_empty |}) rs;
           c_Fields := Doc_empty |}
  | _ => Failure (errors_New "not a composition")
  end.

Definition demo_convertToMap (pss : list xpv1_PatchSet)
  : gmap string xpv1_PatchSet :=
  list_to_map (map (λ ps, (ps_Name ps, ps)) pss).

Definition demo_convertFromMap (m : gmap string xpv1_PatchSet)
    (old : list xpv1_PatchSet) (filter : bool) : list xpv1_PatchSet :=
  omap (λ ps, m !! ps_Name ps) old.

Definition demo_getConvertedPatchSetNames (new old : list xpv1_PatchSet)
  : list string :=
  omap (λ ps,
          if existsb (λ ps',
                 String.eqb (ps_Name ps) (ps_Name ps')
                 && bool_decide (ps_Patches ps = ps_Patches ps')) old
          then None else Some (ps_Name ps)) new.

Definition demo_SetValue (f : demo_doc) (path : string)
    (pss : list xpv1_PatchSet) : demo_doc * option error :=
  match f with
  | Doc_composition _ rs =>
      (Doc_composition (demo_encodePatchSets pss) rs, None)
  | _ => (f, Some (errors_New "not a composition"))
  end.

Definition demo_FromRawExtension (raw : runtime_RawExtension)
  : result Unstructured :=
  Success {| u_GroupVersionKind :=
               {| Group := "demo.example.org"; Version := "v1";
                  Kind := String.string_of_list_byte (Raw raw) |};
             u_GetName := ""; u_GetGenerateName := "";
             u_Object := Doc_empty |}.

(** The [n] letters that the random source draws in world [w]. *)
Definition demo_rand_String (n : nat) : Eff nat string :=
  λ w, (Returns (String.string_of_list_ascii
                   (replicate n (Ascii.ascii_of_nat (97 + w `mod` 26)))), S w).

(** A step of kind [k] on the manifest called [name]. *)
Definition demo_step (k : nat) (name : string) : Eff State (option error) :=
  λ st,
    (Returns None,
     {| pg_Plan :=
          {| Plan_Version := Plan_Version (pg_Plan st);
             Spec_stepMap :=
               <[k := default [] (Spec_stepMap (pg_Plan st) !! k) ++ [name]]>
                 (Spec_stepMap (pg_Plan st));
             Spec_Steps := Spec_Steps (pg_Plan st) |};
        world := world st |}).

Definition demo_step_on (k : nat) (o : UnstructuredWithMetadata)
  : Eff State (UnstructuredWithMetadata * option error) :=
  let* err := demo_step k (u_GetName (Object o)) in
  ret (o, err).

#[global] Instance demo_Collaborators : Collaborators := {|
  toManagedResource _ u := (Some (demo_toManaged u), true, None);
  ToSanitizedUnstructured := demo_ToSanitizedUnstructured;
  toConfiguration := demo_toConfiguration;
  metav1_GetName _ := "configuration";
  getVersionedName u := u_GetName u;
  convertToComposition := demo_convertToComposition;
  convertToMap := demo_convertToMap;
  convertFromMap := demo_convertFromMap;
  getConvertedPatchSetNames := demo_getConvertedPatchSetNames;
  fieldpath_SetValue := demo_SetValue;
  FromRawExtension := demo_FromRawExtension;
  MarshalJSON u := Success (String.list_byte_of_string (Kind (u_GroupVersionKind u)));
  removeInvalidPatches _ _ _ _ target _ := Success (Patches target);
  rand_String := demo_rand_String;
  stepEditConfiguration o _ _ := demo_step 0 (u_GetName o);
  stepNewComposition target := demo_step 1 (u_GetName (Object target));
  stepPauseComposite := demo_step_on 2;
  stepNewManagedResource := demo_step_on 3;
  stepStartManagedResource := demo_step_on 4;
  addStepsForManagedResource _ := ret None;
  stepEditComposites _ _ _ := ret None;
  stepStartComposites _ := ret None;
  stepEditClaims _ _ := ret None;
|}.

(** [commitSteps]: the steps of the map, by increasing key. *)
Definition demo_commitSteps (st : State) : State :=
  {| pg_Plan :=
       {| Plan_Version := Plan_Version (pg_Plan st);
          Spec_stepMap := Spec_stepMap (pg_Plan st);
          Spec_Steps := omap (λ k, Spec_stepMap (pg_Plan st) !! k) (seq 0 5) |};
     world := world st |}.

(** *** Converters, registries and objects of the concrete generator *)

Definition demo_gvk (kind : string) : schema_GroupVersionKind :=
  {| Group := "demo.example.org"; Version := "v1"; Kind := kind |}.

Definition demo_any_name : Regexp := {| MatchString _ := true |}.

Definition demo_stamp (gvk : schema_GroupVersionKind) (mg : Managed)
  : Managed :=
  {| mg_GroupVersionKind := gvk; mg_GetName := mg_GetName mg;
     mg_GetGenerateName := mg_GetGenerateName mg;
     mg_Fields := mg_Fields mg |}.

(** A resource converter that splits a resource into one resource of each
    of the given type identifiers. *)
Definition demo_fanout (gvks : list schema_GroupVersionKind)
  : ResourceConverter :=
  {| Resource mg :=
       match mg with
       | Some m => ret (mg, map (λ gvk, demo_stamp gvk m) gvks, None)
       | None => ret (mg, [], Some (errors_New "not a managed resource"))
       end |}.

(** A resource converter that renames the resource it is handed, to its
    name and [-v1], and replaces it by a resource without a name. *)
Definition demo_rename : ResourceConverter :=
  {| Resource mg :=
       match mg with
       | Some m =>
           ret (Some {| mg_GroupVersionKind := mg_GroupVersionKind m;
                        mg_GetName := mg_GetName m +:+ "-v1";
                        mg_GetGenerateName := mg_GetGenerateName m;
                        mg_Fields := mg_Fields m |},
                [{| mg_GroupVersionKind := mg_GroupVersionKind m;
                    mg_GetName := ""; mg_GetGenerateName := "";
                    mg_Fields := mg_Fields m |}],
                None)
       | None => ret (mg, [], Some (errors_New "not a managed resource"))
       end |}.

(** A patch-set converter that appends patch 99 to every patch set. *)
Definition demo_appendPatch : PatchSetConverter :=
  {| PatchSets psMap :=
       ret ((λ ps, {| ps_Name := ps_Name ps;
                      ps_Patches := ps_Patches ps ++ [99] |}) <$> psMap,
            None) |}.

(** A configuration converter that adds a dependency. *)
Definition demo_dependOn (d : string) : ConfigurationConverter :=
  {| ConfigurationV1 c := ret (c ++ [d], None);
     ConfigurationV1Alpha1 c := ret (c ++ [d], None) |}.

Definition demo_registry
    (rcs : list (schema_GroupVersionKind * ResourceConverter))
    (pscs : list patchSetConverter) (ccs : list configurationConverter)
  : Registry :=
  {| resourceConverters := list_to_map rcs;
     templateConverters := ∅;
     patchSetConverters := pscs;
     configurationConverters := ccs;
     scheme := () |}.

Definition demo_pg (r : Registry) (skip : list schema_GroupVersionKind)
  : PlanGenerator :=
  NewPlanGenerator r [WithSkipGVKs skip].

Definition demo_object (gvk : schema_GroupVersionKind) (name : string)
    (doc : demo_doc) (cat : Category) : UnstructuredWithMetadata :=
  {| Object := {| u_GroupVersionKind := gvk; u_GetName := name;
                  u_GetGenerateName := ""; u_Object := doc |};
     Metadata_of := {| Metadata_Category := cat |} |}.

(** A composition with one patch set and one composed template, named
    [bucket], whose base is of kind [Bucket]. *)
Definition demo_composition : UnstructuredWithMetadata :=
  demo_object xpv1_CompositionGroupVersionKind "xbuckets"
    (Doc_composition [("common", [1; 2])] [(Some "bucket", "Bucket")])
    CategoryComposition.

Definition demo_bucket : UnstructuredWithMetadata :=
  demo_object (demo_gvk "Bucket") "logs" Doc_empty CategoryManaged.

Definition demo_configuration : UnstructuredWithMetadata :=
  demo_object xpmetav1_ConfigurationGroupVersionKind "platform"
    (Doc_configuration ["provider-aws"]) CategoryConfiguration.

(** The configuration that the generator returns for [demo_configuration]
    when the converters left it with the dependencies [deps]. *)
Definition demo_configured (deps : list string) : UnstructuredWithMetadata :=
  {| Object :=
       ToSanitizedUnstructured (any_Object (Some (Configuration_v1 deps)));
     Metadata_of := Metadata_of demo_configuration |}.

Definition demo_state : State :=
  {| pg_Plan := {| Plan_Version := ""; Spec_stepMap := ∅; Spec_Steps := [] |};
     world := 0 |}.


(** A [commitSteps] that appends a marker to the steps of the plan, and
    the number of steps of the plan, which counts its calls. *)
Definition demo_commit_marker (st : State) : State :=
  {| pg_Plan :=
       {| Plan_Version := Plan_Version (pg_Plan st);
          Spec_stepMap := Spec_stepMap (pg_Plan st);
          Spec_Steps := Spec_Steps (pg_Plan st) ++ [["committed"]] |};
     world := world st |}.

Definition demo_commits (st : State) : nat := length (Spec_Steps (pg_Plan st)).

(** The generators of the examples: one whose registry has a patch-set
    converter only, one that splits a [Bucket] into a [BucketACL] and a
    [Bucket], one with two configuration converters, one whose resource
    converter forgets the type identifier, one whose resource converter
    renames what it is handed, and one that skips buckets. *)
Definition demo_pg_patchsets : PlanGenerator :=
  demo_pg (demo_registry []
             [{| ps_re := Some demo_any_name;
                 ps_converter := Some demo_appendPatch |}] []) [].

Definition demo_pg_fanout : PlanGenerator :=
  demo_pg (demo_registry
             [(demo_gvk "Bucket",
               demo_fanout [demo_gvk "BucketACL"; demo_gvk "Bucket"])]
             [] []) [].

Definition demo_pg_configurations : PlanGenerator :=
  demo_pg (demo_registry [] []
             [{| conf_re := Some demo_any_name;
                 conf_converter := Some (demo_dependOn "provider-gcp") |};
              {| conf_re := Some demo_any_name;
                 conf_converter := Some (demo_dependOn "provider-azure") |}])
          [].

Definition demo_pg_unstamped : PlanGenerator :=
  demo_pg (demo_registry
             [(demo_gvk "Bucket",
               demo_fanout [{| Group := ""; Version := ""; Kind := "" |}])]
             [] []) [].

Definition demo_pg_rename : PlanGenerator :=
  demo_pg (demo_registry [(demo_gvk "Bucket", demo_rename)] [] []) [].

Definition demo_pg_skip : PlanGenerator :=
  demo_pg (demo_registry [] [] [])
          [{| Group := ""; Version := ""; Kind := "Bucket" |}].

(** The composed template of [demo_composition], and the two envelopes
    that [demo_pg_fanout] converts its base to. *)
Definition demo_template : xpv1_ComposedTemplate :=
  {| Name := Some "bucket";
     Base := {| Raw := String.list_byte_of_string "Bucket" |};
     Patches := []; ct_Fields := Doc_empty |}.

Definition demo_unnamed_template : xpv1_ComposedTemplate :=
  {| Name := None;
     Base := {| Raw := String.list_byte_of_string "Bucket" |};
     Patches := []; ct_Fields := Doc_empty |}.

Definition demo_converted : list UnstructuredWithMetadata :=
  [demo_object (demo_gvk "BucketACL") "" Doc_empty CategoryComposition;
   demo_object (demo_gvk "Bucket") "" Doc_empty CategoryComposition].

(** The templates that the fan-out of [demo_template] produces, and the
    composition that [demo_pg_fanout] converts [demo_composition] to. *)
Definition demo_fanout_templates : list xpv1_ComposedTemplate :=
  [{| Name := Some "bucket-aaaaa";
      Base := {| Raw := String.list_byte_of_string "BucketACL" |};
      Patches := []; ct_Fields := Doc_empty |};
   {| Name := Some "bucket";
      Base := {| Raw := String.list_byte_of_string "Bucket" |};
      Patches := []; ct_Fields := Doc_empty |}].

Definition demo_converted_composition : UnstructuredWithMetadata :=
  demo_object xpv1_CompositionGroupVersionKind "xbuckets"
    (Doc_composition [("common", [1; 2])]
       [(Some "bucket-aaaaa", "BucketACL"); (Some "bucket", "Bucket")])
    CategoryComposition.

Definition demo_claim : UnstructuredWithMetadata :=
  demo_object (demo_gvk "BucketClaim") "my-bucket" Doc_empty CategoryClaim.

Definition demo_locals : Locals :=
  {| convertedMR := ∅; convertedComposition := ∅;
     composites := []; claims := [] |}.

(** ** Further vocabulary

    Predicates and reference functions for the properties of the code
    that the specification does not state. *)
Section Vocabulary.
Context {C : Carriers} {X : Collaborators}.

(** A resource that carries a name or a generated-name prefix. *)
Definition is_named (r : Managed) : Prop :=
  mg_GetName r ≠ "" ∨ mg_GetGenerateName r ≠ "".

(** The envelope of a converted resource: the sanitized resource with the
    metadata of the source envelope. *)
Definition enveloped (o : UnstructuredWithMetadata) (mg : Managed)
  : UnstructuredWithMetadata :=
  {| Object := ToSanitizedUnstructured (any_Managed mg);
     Metadata_of := Metadata_of o |}.

(** The converter of a patch-set entry, when the entry applies to an
    object called [name]. *)
Definition ps_applicable (name : string) (psConv : patchSetConverter)
  : option PatchSetConverter :=
  match ps_re psConv, ps_converter psConv with
  | Some re, Some converter =>
      if MatchString re name then Some converter else None
  | _, _ => None
  end.

(** A map of converted compositions: every name goes to the name followed
    by [-migrated]. *)
Definition migrated_names (m : gmap string string) : Prop :=
  ∀ name migratedName,
    m !! name = Some migratedName → migratedName = name +:+ "-migrated".

(** The objects that the main pass treats as claims: neither a
    Configuration nor a Composition by type identifier, and of category
    claim. *)
Definition is_claim (o : UnstructuredWithMetadata) : bool :=
  negb (bool_decide (u_GroupVersionKind (Object o)
                     = xpmetav1_ConfigurationGroupVersionKind)
        || bool_decide (u_GroupVersionKind (Object o)
                        = xpmetav1alpha1_ConfigurationGroupVersionKind))
  && negb (bool_decide (u_GroupVersionKind (Object o)
                        = xpv1_CompositionGroupVersionKind))
  && negb (bool_decide (Metadata_Category (Metadata_of o)
                        = CategoryComposite))
  && bool_decide (Metadata_Category (Metadata_of o) = CategoryClaim).

(** The objects that the main pass treats as composites. *)
Definition is_composite (o : UnstructuredWithMetadata) : bool :=
  negb (bool_decide (u_GroupVersionKind (Object o)
                     = xpmetav1_ConfigurationGroupVersionKind)
        || bool_decide (u_GroupVersionKind (Object o)
                        = xpmetav1alpha1_ConfigurationGroupVersionKind))
  && negb (bool_decide (u_GroupVersionKind (Object o)
                        = xpv1_CompositionGroupVersionKind))
  && bool_decide (Metadata_Category (Metadata_of o) = CategoryComposite).
(** The objects that a source yields, in order, its claims, and the
    number of its composites. *)
Fixpoint yielded (source : Source) : list UnstructuredWithMetadata :=
  match source with
  | [] => []
  | Next_yields o :: source' => o :: yielded source'
  | _ :: source' => yielded source'
  end.

Fixpoint yielded_claims (source : Source) : list UnstructuredWithMetadata :=
  match source with
  | [] => []
  | Next_yields o :: source' =>
      if is_claim o then o :: yielded_claims source'
      else yielded_claims source'
  | _ :: source' => yielded_claims source'
  end.

Fixpoint yielded_composites (source : Source) : nat :=
  match source with
  | [] => 0
  | Next_yields o :: source' =>
      if is_composite o then S (yielded_composites source')
      else yielded_composites source'
  | _ :: source' => yielded_composites source'
  end.

(** The local accumulators at the start of [convert]. *)
Definition Locals_empty : Locals :=
  {| convertedMR := ∅; convertedComposition := ∅;
     composites := []; claims := [] |}.

(** The templates of a composition none of whose bases has a resource
    converter or a template converter. *)
Definition without_converters (pg : PlanGenerator)
    (resources : list xpv1_ComposedTemplate) : Prop :=
  ∀ cmp u, cmp ∈ resources → FromRawExtension (Base cmp) = Success u →
    resourceConverters (registry pg) !! u_GroupVersionKind u = None
    ∧ templateConverters (registry pg) !! u_GroupVersionKind u = None.

End Vocabulary.

(** ** The event handler (package [handler])

    [EventHandler] queues reconcile requests through named rate limiters
    and forwards the events of the cluster to an inner handler.  Every
    method holds the mutex of the handler for its whole body (the event
    callbacks for [setQueue]): the embedding is of calls that run one
    after the other.  A work queue is shared with the controller that owns
    it: the handler holds a reference into the store of the queues.  The
    clock that a rate limiter reads is the argument [now] of the call. *)

Record reconcile_Request : Type := {
  NamespacedName_Namespace : string;
  NamespacedName_Name : string;
}.

(** [k8s.io/client-go/util/workqueue], [sigs.k8s.io/controller-runtime]
    and the logger of [crossplane-runtime], through what the handler
    calls. *)
Class Workqueue : Type := {
  RateLimiter : Type;
  Duration : Type;
  Time : Type;
  Queue : Type;
  Logger : Type;
  event_CreateEvent : Type;
  event_UpdateEvent : Type;
  event_DeleteEvent : Type;
  event_GenericEvent : Type;
  DefaultControllerRateLimiter : RateLimiter;
  NumRequeues : RateLimiter → reconcile_Request → Z;
  When : Time → RateLimiter → reconcile_Request → Duration * RateLimiter;
  RateLimiter_Forget : RateLimiter → reconcile_Request → RateLimiter;
  AddAfter : reconcile_Request → Duration → Queue → Queue;
  (** the methods of [handler.EnqueueRequestForObject] *)
  EnqueueRequestForObject_Create : event_CreateEvent → Queue → Queue;
  EnqueueRequestForObject_Update : event_UpdateEvent → Queue → Queue;
  EnqueueRequestForObject_Delete : event_DeleteEvent → Queue → Queue;
  EnqueueRequestForObject_Generic : event_GenericEvent → Queue → Queue;
}.

Section Handler.
Context {Q : Workqueue}.

(** The fields of [EventHandler]; the inner handler is always an
    [EnqueueRequestForObject], a nil [queue] or [logger] is [None]. *)
Record EventHandler : Type := {
  queue : option nat;
  rateLimiterMap : gmap string RateLimiter;
  logger : option Logger;
}.

(** The handler and the work queues that references point to. *)
Record Heap : Type := {
  handler : EventHandler;
  queues : gmap nat Queue;
}.

Definition Option : Type := EventHandler → EventHandler.

Definition WithLogger (l : Logger) : Option :=
  λ eventHandler,
    {| queue := queue eventHandler;
       rateLimiterMap := rateLimiterMap eventHandler;
       logger := Some l |}.

Definition NewEventHandler (opts : list Option) : EventHandler :=
  foldl (λ eh o, o eh)
        {| queue := None; rateLimiterMap := ∅; logger := None |} opts.

Definition request (name : string) : reconcile_Request :=
  {| NamespacedName_Namespace := ""; NamespacedName_Name := name |}.

Definition set_rateLimiterMap (m : gmap string RateLimiter) (h : Heap)
  : Heap :=
  {| handler := {| queue := queue (handler h);
                   rateLimiterMap := m;
                   logger := logger (handler h) |};
     queues := queues h |}.

Definition set_queues (qs : gmap nat Queue) (h : Heap) : Heap :=
  {| handler := handler h; queues := qs |}.

(** [RequestReconcile]; the calls on a nil logger panic. *)
Definition RequestReconcile (now : Time) (rateLimiterName name : string)
    (failureLimit : option Z) : Eff Heap bool :=
  λ h,
    match queue (handler h) with
    | None => (Returns false, h)
    | Some q =>
        match logger (handler h) with
        | None => (Panics, h)
        | Some _ =>
            let item := request name in
            let '(rateLimiter, h) :=
              match rateLimiterMap (handler h) !! rateLimiterName with
              | Some rateLimiter => (rateLimiter, h)
              | None =>
                  (DefaultControllerRateLimiter,
                   set_rateLimiterMap
                     (<[rateLimiterName := DefaultControllerRateLimiter]>
                        (rateLimiterMap (handler h))) h)
              end in
            if match failureLimit with
               | Some limit => (limit <? NumRequeues rateLimiter item)%Z
               | None => false
               end
            then (Returns false, h)
            else
              let '(when, rateLimiter) := When now rateLimiter item in
              (Returns true,
               set_queues (alter (AddAfter item when) q (queues h))
                 (set_rateLimiterMap
                    (<[rateLimiterName := rateLimiter]>
                       (rateLimiterMap (handler h))) h))
        end
    end.

(** [Forget] *)
Definition Forget (rateLimiterName name : string) : Eff Heap () :=
  λ h,
    match rateLimiterMap (handler h) !! rateLimiterName with
    | None => (Returns (), h)
    | Some rateLimiter =>
        (Returns (),
         set_rateLimiterMap
           (<[rateLimiterName := RateLimiter_Forget rateLimiter
                                   (request name)]>
              (rateLimiterMap (handler h))) h)
    end.

(** [setQueue] *)
Definition setQueue (limitingInterface : nat) : Eff Heap () :=
  λ h,
    match queue (handler h) with
    | None =>
        (Returns (),
         {| handler := {| queue := Some limitingInterface;
                          rateLimiterMap := rateLimiterMap (handler h);
                          logger := logger (handler h) |};
            queues := queues h |})
    | Some _ => (Returns (), h)
    end.

(** A call of [e.logger.Debug]. *)
Definition logger_Debug : Eff Heap () :=
  λ h, match logger (handler h) with
       | None => (Panics, h)
       | Some _ => (Returns (), h)
       end.

(** The body that [Create], [Update], [Delete] and [Generic] share:
    [inner] is the method of the inner handler for the event. *)
Definition forward (inner : Queue → Queue) (limitingInterface : nat)
  : Eff Heap () :=
  let* _ := setQueue limitingInterface in
  let* _ := logger_Debug in
  λ h, (Returns (),
        set_queues (alter inner limitingInterface (queues h)) h).

Definition Create (ev : event_CreateEvent) (limitingInterface : nat)
  : Eff Heap () :=
  forward (EnqueueRequestForObject_Create ev) limitingInterface.

Definition Update (ev : event_UpdateEvent) (limitingInterface : nat)
  : Eff Heap () :=
  forward (EnqueueRequestForObject_Update ev) limitingInterface.

Definition Delete (ev : event_DeleteEvent) (limitingInterface : nat)
  : Eff Heap () :=
  forward (EnqueueRequestForObject_Delete ev) limitingInterface.

Definition Generic (ev : event_GenericEvent) (limitingInterface : nat)
  : Eff Heap () :=
  forward (EnqueueRequestForObject_Generic ev) limitingInterface.

(** The calls on a handler, and the heap after a sequence of calls, each
    one running from what the previous one left (also when that one
    panicked and the panic was recovered). *)
Inductive Call : Type :=
| Call_RequestReconcile (now : Time) (rateLimiterName name : string)
                        (failureLimit : option Z)
| Call_Forget (rateLimiterName name : string)
| Call_Create (ev : event_CreateEvent) (limitingInterface : nat)
| Call_Update (ev : event_UpdateEvent) (limitingInterface : nat)
| Call_Delete (ev : event_DeleteEvent) (limitingInterface : nat)
| Call_Generic (ev : event_GenericEvent) (limitingInterface : nat).

Definition after_call (c : Call) (h : Heap) : Heap :=
  match c with
  | Call_RequestReconcile now rateLimiterName name failureLimit =>
      (RequestReconcile now rateLimiterName name failureLimit h).2
  | Call_Forget rateLimiterName name => (Forget rateLimiterName name h).2
  | Call_Create ev q => (Create ev q h).2
  | Call_Update ev q => (Update ev q h).2
  | Call_Delete ev q => (Delete ev q h).2
  | Call_Generic ev q => (Generic ev q h).2
  end.

Definition after_calls (cs : list Call) (h : Heap) : Heap :=
  foldl (λ h c, after_call c h) h cs.

(** The queue that an event comes with; a request and a forget come with
    none. *)
Definition event_queue (c : Call) : option nat :=
  match c with
  | Call_Create _ q | Call_Update _ q | Call_Delete _ q
  | Call_Generic _ q => Some q
  | Call_RequestReconcile _ _ _ _ | Call_Forget _ _ => None
  end.

(** An event callback [m] for an event from the queue [q] that panics
    after [setQueue] and before the inner handler: the queue of the
    handler is recorded, no queue of the store has changed. *)
Definition panics_after_setQueue (m : Eff Heap ()) (q : nat) (h : Heap)
  : Prop :=
  (m h).1 = Panics
  ∧ queue (handler (m h).2) = Some (default q (queue (handler h)))
  ∧ queues (m h).2 = queues h.

(** The limiter that a request under [rateLimiterName] goes through: the
    one of the map, or a new default one. *)
Definition limiter_of (e : EventHandler) (rateLimiterName : string)
  : RateLimiter :=
  default DefaultControllerRateLimiter
          (rateLimiterMap e !! rateLimiterName).
End Handler.

(** The rate-limiter name that a call goes through, if any. *)
Definition rateLimiterName_of {Q : Workqueue} (c : Call) : option string :=
  match c with
  | Call_RequestReconcile _ rateLimiterName _ _ => Some rateLimiterName
  | Call_Forget rateLimiterName _ => Some rateLimiterName
  | _ => None
  end.

(** A request is within its failure limit when there is no limit or the
    limiter counts no more requeues of the item than the limit. *)
Definition within_limit {Q : Workqueue} (rateLimiter : RateLimiter)
    (item : reconcile_Request) (failureLimit : option Z) : Prop :=
  match failureLimit with
  | Some limit => (NumRequeues rateLimiter item ≤ limit)%Z
  | None => True
  end.

(** *** A concrete work queue: a rate limiter is the number of requeues it
    counted, a delay doubles with each of them, a queue is the list of
    what was added to it, an event is the name of its object. *)
#[global] Instance demo_Workqueue : Workqueue := {|
  RateLimiter := nat;
  Duration := nat;
  Time := nat;
  Queue := list (string * nat);
  Logger := unit;
  event_CreateEvent := string;
  event_UpdateEvent := string;
  event_DeleteEvent := string;
  event_GenericEvent := string;
  DefaultControllerRateLimiter := 0;
  NumRequeues rl _ := Z.of_nat rl;
  When now rl _ := (now + 2 ^ rl, S rl);
  RateLimiter_Forget _ _ := 0;
  AddAfter item when q := q ++ [(NamespacedName_Name item, when)];
  EnqueueRequestForObject_Create ev q := q ++ [(ev, 0)];
  EnqueueRequestForObject_Update ev q := q ++ [(ev, 0)];
  EnqueueRequestForObject_Delete ev q := q ++ [(ev, 0)];
  EnqueueRequestForObject_Generic ev q := q ++ [(ev, 0)];
|}.

(** A handler with a logger and one without, before any event, with two
    empty work queues. *)
Definition demo_heap : Heap :=
  {| handler := NewEventHandler [WithLogger ()];
     queues := <[1 := []]> (<[2 := []]> ∅) |}.

Definition demo_heap_without_logger : Heap :=
  {| handler := NewEventHandler []; queues := <[1 := []]> ∅ |}.

(** *** Further objects of the concrete generator *)

(** The composition of the example after [demo_appendPatch], and
    decoded. *)
Definition demo_patched_composition : UnstructuredWithMetadata :=
  demo_object xpv1_CompositionGroupVersionKind "xbuckets"
    (Doc_composition [("common", [1; 2; 99])] [(Some "bucket", "Bucket")])
    CategoryComposition.

Definition demo_patched_comp : xpv1_Composition :=
  {| c_GetName := "xbuckets";
     Spec_PatchSets := [{| ps_Name := "common"; ps_Patches := [1; 2; 99] |}];
     Spec_Resources := [demo_template];
     c_Fields := Doc_empty |}.

(** The two resources that [demo_pg_fanout] converts the bucket [logs]
    to. *)
Definition demo_bucket_targets : list UnstructuredWithMetadata :=
  [demo_object (demo_gvk "BucketACL") "logs" Doc_empty CategoryManaged;
   demo_bucket].

(** The resource that [demo_pg_rename] converts the bucket [logs] to. *)
Definition demo_renamed_targets : list UnstructuredWithMetadata :=
  [{| Object := {| u_GroupVersionKind := demo_gvk "Bucket";
                   u_GetName := ""; u_GetGenerateName := "logs-v1-";
                   u_Object := Doc_empty |};
      Metadata_of := Metadata_of demo_bucket |}].

(** Three entries of the configuration converters that apply to no
    object: one without a pattern, one without a converter, one whose
    pattern matches no name. *)
Definition demo_no_name : Regexp := {| MatchString _ := false |}.

Definition demo_inapplicable : list configurationConverter :=
  [{| conf_re := None;
      conf_converter := Some (demo_dependOn "provider-gcp") |};
   {| conf_re := Some demo_any_name; conf_converter := None |};
   {| conf_re := Some demo_no_name;
      conf_converter := Some (demo_dependOn "provider-gcp") |}].

(** The fan-out of [demo_template] under a skip list that holds its kind:
    two templates called [bucket]. *)
Definition demo_skipped_templates : list xpv1_ComposedTemplate :=
  [ct_SetBase {| Raw := String.list_byte_of_string "BucketACL" |}
              demo_template;
   ct_SetBase {| Raw := String.list_byte_of_string "Bucket" |}
              demo_template].

Definition demo_composite : UnstructuredWithMetadata :=
  demo_object (demo_gvk "XBucket") "xlogs" Doc_empty CategoryComposite.

(** An event for the pod [pod] from queue 1, and a request for it. *)
Definition demo_event : Call := @Call_Create demo_Workqueue "pod" 1.

Definition demo_request : Call :=
  @Call_RequestReconcile demo_Workqueue 7 "default" "pod" None.

Definition demo_calls : list Call := [demo_event; demo_request].

(** ** Properties of the generator *)

Lemma length_zero_empty (s : string) :
  (String.length s =? 0)%nat = true ↔ s = "".
Proof.
  destruct s; simpl; split; intros H; try done.
Qed.

Lemma length_append (s t : string) :
  String.length (s +:+ t) = String.length s + String.length t.
Proof.
  induction s as [|a s IH]; simpl; [done | by rewrite IH].
Qed.

Lemma append_suffix_differs (s t : string) : s +:+ "-" +:+ t ≠ s.
Proof.
  intros H. apply (f_equal String.length) in H.
  rewrite !length_append in H. simpl in H. lia.
Qed.

Lemma nonempty_length (s : string) :
  (0 <? String.length s)%nat = true ↔ s ≠ "".
Proof.
  destruct s; simpl; split; intros H; try done.
Qed.

Ltac eff := unfold bind, ret, panic in *.

Section Properties.
Context {C : Carriers} {X : Collaborators}.

(** *** The skip list *)

Lemma gvkMatches_entry_matches (entry identifier : schema_GroupVersionKind) :
  gvkMatches entry identifier = true ↔ entry_matches entry identifier.
Proof.
  unfold gvkMatches, entry_matches.
  rewrite !andb_true_iff, !orb_true_iff, !length_zero_empty,
    !String.eqb_eq.
  tauto.
Qed.

Lemma isGVKSkipped_range_exists (skip : list schema_GroupVersionKind)
    (sourceGVK : schema_GroupVersionKind) :
  isGVKSkipped_range skip sourceGVK = true
  ↔ ∃ entry, entry ∈ skip ∧ entry_matches entry sourceGVK.
Proof.
  induction skip as [|gvk skip IH]; simpl.
  - split; [done | intros (e & He & _); by apply elem_of_nil in He].
  - destruct (gvkMatches gvk sourceGVK) eqn:Hm.
    + split; [intros _ | done].
      exists gvk. split; [apply list_elem_of_here |].
      by apply gvkMatches_entry_matches.
    + rewrite IH. split.
      * intros (e & He & Hs). exists e. split; [by apply list_elem_of_further | done].
      * intros (e & He & Hs). apply elem_of_cons in He as [-> | He].
        -- apply gvkMatches_entry_matches in Hs. congruence.
        -- by exists e.
Qed.

(** C6.  A skip-list entry matches a type identifier exactly when each of
    its non-empty components (group, version, kind) equals the component
    of the identifier; a type identifier is skipped exactly when some
    entry of the skip list matches it, so that an entry with all three
    components empty skips every type identifier; and for a skipped
    source type identifier [setDefaultsOnTargetTemplate] returns nil and
    leaves the template, the name-used flag and the random source as
    they were. *)
Theorem skip_list_wildcard_matching (pg : PlanGenerator)
    (sourceGVK : schema_GroupVersionKind) :
  (∀ entry, gvkMatches entry sourceGVK = true
            ↔ entry_matches entry sourceGVK)
  ∧ (isGVKSkipped pg sourceGVK = true
     ↔ ∃ entry, entry ∈ SkipGVKs pg ∧ entry_matches entry sourceGVK)
  ∧ ({| Group := ""; Version := ""; Kind := "" |} ∈ SkipGVKs pg →
     isGVKSkipped pg sourceGVK = true)
  ∧ (isGVKSkipped pg sourceGVK = true →
     ∀ sourceName sourceNameUsed gvkTarget target patchSets convertedPS w,
       setDefaultsOnTargetTemplate pg sourceName sourceNameUsed sourceGVK
         gvkTarget target patchSets convertedPS w
       = (Returns (sourceNameUsed, target, None), w)).
Proof.
  split; [intros entry; apply gvkMatches_entry_matches |].
  split; [apply isGVKSkipped_range_exists |].
  split.
  - intros Hin. apply isGVKSkipped_range_exists.
    eexists; split; [exact Hin |].
    unfold entry_matches; simpl. tauto.
  - intros Hs sourceName sourceNameUsed gvkTarget target patchSets
      convertedPS w.
    unfold setDefaultsOnTargetTemplate. by rewrite Hs.
Qed.

(** *** Resource conversion *)

(** C8.  An envelope whose type identifier has no registered resource
    converter comes back alone and as it was, with converted false and a
    nil error: nothing is produced in its place, no name and no
    generated-name prefix is set, and the world is not touched. *)
Theorem convertResource_without_converter (pg : PlanGenerator)
    (o : UnstructuredWithMetadata) (compositionContext : bool)
    (w : World) :
  resourceConverters (registry pg) !! u_GroupVersionKind (Object o) = None →
  convertResource pg o compositionContext w = (Returns ([o], false, None), w).
Proof.
  intros Hnone. unfold convertResource. by rewrite Hnone.
Qed.


Lemma assertGVK_zero (resources : list Managed) :
  assertGVK resources = Some (errors_New errMissingGVK)
  ↔ ∃ r, r ∈ resources ∧ IsZero (mg_GroupVersionKind r) = true.
Proof.
  induction resources as [|r resources IH]; simpl.
  - split; [done | intros (r & Hr & _); by apply elem_of_nil in Hr].
  - destruct (IsZero (mg_GroupVersionKind r)) eqn:Hz.
    + split; [intros _ | done].
      exists r. split; [apply list_elem_of_here | done].
    + rewrite IH. split.
      * intros (r' & Hr & Hz'). exists r'.
        split; [by apply list_elem_of_further | done].
      * intros (r' & Hr & Hz'). apply elem_of_cons in Hr as [-> | Hr].
        -- congruence.
        -- by exists r'.
Qed.


(** *** Template defaulting *)

Lemma ct_SetBase_Name (b : runtime_RawExtension)
    (c : xpv1_ComposedTemplate) : Name (ct_SetBase b c) = Name c.
Proof. done. Qed.

Lemma setDefaults_unnamed (pg : PlanGenerator) (sourceName : option string)
    (sourceNameUsed : bool) (gvkSource gvkTarget : schema_GroupVersionKind)
    (target : xpv1_ComposedTemplate) (patchSets : list xpv1_PatchSet)
    (convertedPS : list string) (w : World) :
  sourceName = None ∨ sourceName = Some "" →
  ∃ used' target' err,
    setDefaultsOnTargetTemplate pg sourceName sourceNameUsed gvkSource
      gvkTarget target patchSets convertedPS w
    = (Returns (used', target', err), w)
    ∧ Name target' = Name target.
Proof.
  intros Hname. unfold setDefaultsOnTargetTemplate.
  destruct (isGVKSkipped pg gvkSource); [eff; eauto |].
  destruct (removeInvalidPatches _ _ _ _ _ _) as [patches|e];
    [| eff; eauto].
  destruct (sourceNameUsed || _); [| eff; eauto].
  destruct Hname as [-> | ->]; simpl; eff; eauto.
Qed.

Lemma targets_unnamed (pg : PlanGenerator) (cmp : xpv1_ComposedTemplate)
    (gvk : schema_GroupVersionKind) (patchSets : list xpv1_PatchSet)
    (convertedPS : list string)
    (converted : list UnstructuredWithMetadata) :
  Name cmp = None ∨ Name cmp = Some "" →
  ∀ (cmps0 : list xpv1_ComposedTemplate) (sourceNameUsed : bool)
    (w : World),
  ∃ cmps err,
    convertComposition_targets pg cmp gvk patchSets convertedPS converted
      cmps0 sourceNameUsed w
    = (Returns (cmps, err), w)
    ∧ (err = None →
       ∃ new, cmps = cmps0 ++ new
              ∧ length new = length converted
              ∧ Forall (λ c, Name c = Name cmp) new).
Proof.
  intros Hname.
  induction converted as [|u converted IH]; intros cmps0 used w; simpl.
  - eff. exists cmps0, None. split; [done |]. intros _.
    exists []. by rewrite app_nil_r.
  - destruct (MarshalJSON (Object u)) as [buff|e].
    2:{ eff. eexists _, _. split; [done |]. done. }
    unfold bind at 1.
    destruct (setDefaults_unnamed pg (Name cmp) used gvk
                (u_GroupVersionKind (Object u))
                (ct_SetBase {| Raw := buff |} cmp) patchSets convertedPS w
                Hname) as (used' & c & err & -> & Hc).
    destruct err as [e|].
    { eff. eexists _, _. split; [done |]. done. }
    destruct (IH (cmps0 ++ [c]) used' w) as (cmps & err & -> & Hnew).
    exists cmps, err. split; [done |].
    intros Herr. destruct (Hnew Herr) as (new & -> & Hlen & Hall).
    exists (c :: new). rewrite <- app_assoc. split; [done |].
    split; [simpl; by rewrite Hlen |].
    constructor; [by rewrite Hc | done].
Qed.

(** C10.  When the name of the source template is nil or empty,
    [setDefaultsOnTargetTemplate] returns with the name of the target as
    it was and without drawing from the random source, whatever the
    name-used flag and the two kinds are; so all the templates that a
    fan-out of such a template produces, the second and later ones
    included, carry the name of the source template. *)
Theorem unnamed_template_is_never_renamed (pg : PlanGenerator)
    (cmp : xpv1_ComposedTemplate) (gvk : schema_GroupVersionKind)
    (patchSets : list xpv1_PatchSet) (convertedPS : list string) :
  Name cmp = None ∨ Name cmp = Some "" →
  (∀ sourceNameUsed gvkTarget target w,
     ∃ used' target' err,
       setDefaultsOnTargetTemplate pg (Name cmp) sourceNameUsed gvk
         gvkTarget target patchSets convertedPS w
       = (Returns (used', target', err), w)
       ∧ Name target' = Name target)
  ∧ (∀ converted w,
     ∃ cmps err,
       convertComposition_targets pg cmp gvk patchSets convertedPS
         converted [] false w
       = (Returns (cmps, err), w)
       ∧ (err = None →
          length cmps = length converted
          ∧ Forall (λ c, Name c = Name cmp) cmps)).
Proof.
  intros Hname. split.
  - intros. by apply setDefaults_unnamed.
  - intros converted w.
    destruct (targets_unnamed pg cmp gvk patchSets convertedPS converted
                Hname [] false w) as (cmps & err & Heq & Hnew).
    exists cmps, err. split; [done |]. intros Herr.
    destruct (Hnew Herr) as (new & -> & Hlen & Hall). done.
Qed.

Lemma keeps_source_name_0 (gvk : schema_GroupVersionKind)
    (u : UnstructuredWithMetadata)
    (converted : list UnstructuredWithMetadata) :
  keeps_source_name gvk (u :: converted) 0
  ↔ Kind (u_GroupVersionKind (Object u)) = Kind gvk.
Proof.
  unfold keeps_source_name. simpl. split.
  - by intros [(u' & [= <-] & Hk) _].
  - intros Hk. split; [by exists u |]. intros j u' Hj. lia.
Qed.

Lemma keeps_source_name_S (gvk : schema_GroupVersionKind)
    (u : UnstructuredWithMetadata)
    (converted : list UnstructuredWithMetadata) (i : nat) :
  keeps_source_name gvk (u :: converted) (S i)
  ↔ Kind (u_GroupVersionKind (Object u)) ≠ Kind gvk
    ∧ keeps_source_name gvk converted i.
Proof.
  unfold keeps_source_name. simpl. split.
  - intros [Hi Hbefore]. split; [apply (Hbefore 0 u); [lia | done] |].
    split; [done |]. intros j u' Hj Hu'.
    apply (Hbefore (S j) u'); [lia | done].
  - intros [Hu [Hi Hbefore]]. split; [done |].
    intros [|j] u' Hj; simpl.
    + by intros [= <-].
    + apply Hbefore. lia.
Qed.

(** The naming of the templates that the inner loop of
    [convertComposition] appends, from any state of the loop. *)
Lemma targets_naming (pg : PlanGenerator) (cmp : xpv1_ComposedTemplate)
    (gvk : schema_GroupVersionKind) (patchSets : list xpv1_PatchSet)
    (convertedPS : list string) (original : string)
    (converted : list UnstructuredWithMetadata) :
  isGVKSkipped pg gvk = false →
  Name cmp = Some original →
  original ≠ "" →
  ∀ (cmps0 cmps : list xpv1_ComposedTemplate) (sourceNameUsed : bool)
    (w w' : World),
    convertComposition_targets pg cmp gvk patchSets convertedPS converted
      cmps0 sourceNameUsed w
    = (Returns (cmps, None), w') →
    ∃ new, cmps = cmps0 ++ new
           ∧ length new = length converted
           ∧ ∀ i c, new !! i = Some c →
               (sourceNameUsed = false →
                keeps_source_name gvk converted i →
                Name c = Some original)
               ∧ (sourceNameUsed = true
                  ∨ ¬ keeps_source_name gvk converted i →
                  generated_name original c).
Proof.
  intros Hskip Hname Hne.
  induction converted as [|u converted IH];
    intros cmps0 cmps used w w'; simpl.
  - eff. intros [= <- <-]. exists []. rewrite app_nil_r.
    split; [done |]. split; [done |]. intros i c Hi. done.
  - destruct (MarshalJSON (Object u)) as [buff|e]; [| eff; done].
    unfold bind at 1. unfold setDefaultsOnTargetTemplate.
    rewrite Hskip.
    destruct (removeInvalidPatches _ _ _ _ _ _) as [patches|e];
      [| eff; done].
    destruct used; simpl.
    + (* the name of the source is taken already *)
      rewrite Hname. apply nonempty_length in Hne as Hlen. rewrite Hlen.
      unfold bind at 1.
      destruct (rand_String 5 w) as [[suffix|] w1]; [| done].
      unfold ret at 1. intros Hrest.
      apply IH in Hrest as (new & -> & Hlen' & Hnew).
      eexists (_ :: new). rewrite <- app_assoc. split; [done |].
      split; [simpl; by rewrite Hlen' |].
      intros [|i] c; simpl.
      * intros [= <-]. split; [done |]. intros _. by exists suffix.
      * intros Hc. destruct (Hnew i c Hc) as [_ Hgen].
        split; [done |]. intros _. apply Hgen. by left.
    + destruct (String.eqb (Kind gvk) (Kind (u_GroupVersionKind (Object u))))
        eqn:Hkind; simpl.
      * (* the first template of the kind of the source *)
        apply String.eqb_eq in Hkind.
        intros Hrest.
        apply IH in Hrest as (new & -> & Hlen' & Hnew).
        eexists (_ :: new). rewrite <- app_assoc. split; [done |].
        split; [simpl; by rewrite Hlen' |].
        intros [|i] c; simpl.
        -- intros [= <-]. split; [done |].
           intros [Hu | Hnk]; [done |].
           exfalso. apply Hnk. by apply keeps_source_name_0.
        -- intros Hc. destruct (Hnew i c Hc) as [_ Hgen].
           split.
           ++ intros _ Hk. apply keeps_source_name_S in Hk as [Hk _].
              by rewrite Hkind in Hk.
           ++ intros _. apply Hgen. by left.
      * (* a template of another kind, the name still free *)
        apply String.eqb_neq in Hkind.
        rewrite Hname. apply nonempty_length in Hne as Hlen. rewrite Hlen.
        unfold bind at 1.
        destruct (rand_String 5 w) as [[suffix|] w1]; [| done].
        unfold ret at 1. intros Hrest.
        apply IH in Hrest as (new & -> & Hlen' & Hnew).
        eexists (_ :: new). rewrite <- app_assoc. split; [done |].
        split; [simpl; by rewrite Hlen' |].
        intros [|i] c; simpl.
        -- intros [= <-]. split.
           ++ intros _ Hk. apply keeps_source_name_0 in Hk. congruence.
           ++ intros _. by exists suffix.
        -- intros Hc. destruct (Hnew i c Hc) as [Hkeep Hgen].
           split.
           ++ intros _ Hk. apply keeps_source_name_S in Hk as [_ Hk].
              by apply Hkeep.
           ++ intros [Hu | Hnk]; [done |]. apply Hgen. right.
              intros Hk. apply Hnk. apply keeps_source_name_S.
              split; [congruence | done].
Qed.

Lemma generated_name_differs (original : string)
    (c : xpv1_ComposedTemplate) :
  generated_name original c → Name c ≠ Some original.
Proof.
  intros [suffix ->] [= H]. by apply append_suffix_differs in H.
Qed.

(** The suffixes of the templates that the inner loop of
    [convertComposition] renames, from any state of the loop: they are
    what the random source returned, call after call, and nothing else
    acts on the world. *)
Lemma targets_draws (pg : PlanGenerator) (cmp : xpv1_ComposedTemplate)
    (gvk : schema_GroupVersionKind) (patchSets : list xpv1_PatchSet)
    (convertedPS : list string) (original : string)
    (converted : list UnstructuredWithMetadata) :
  isGVKSkipped pg gvk = false →
  Name cmp = Some original →
  original ≠ "" →
  ∀ (cmps0 cmps : list xpv1_ComposedTemplate) (sourceNameUsed : bool)
    (w w' : World),
    convertComposition_targets pg cmp gvk patchSets convertedPS converted
      cmps0 sourceNameUsed w
    = (Returns (cmps, None), w') →
    ∃ new suffixes,
      cmps = cmps0 ++ new
      ∧ draws (length suffixes) w = (Returns suffixes, w')
      ∧ other_names original new
        = (λ suffix, Some (original +:+ "-" +:+ suffix)) <$> suffixes.
Proof.
  intros Hskip Hname Hne.
  induction converted as [|u converted IH];
    intros cmps0 cmps used w w'; simpl.
  - eff. intros [= <- <-]. exists [], []. by rewrite app_nil_r.
  - destruct (MarshalJSON (Object u)) as [buff|e]; [| eff; done].
    unfold bind at 1. unfold setDefaultsOnTargetTemplate.
    rewrite Hskip.
    destruct (removeInvalidPatches _ _ _ _ _ _) as [patches|e];
      [| eff; done].
    destruct (used || negb (String.eqb (Kind gvk)
                              (Kind (u_GroupVersionKind (Object u))))).
    + rewrite Hname. apply nonempty_length in Hne as Hlen. rewrite Hlen.
      unfold bind at 1.
      destruct (rand_String 5 w) as [[suffix|] w1] eqn:Hrand; [| done].
      unfold ret at 1. intros Hrest.
      apply IH in Hrest as (new & suffixes & -> & Hdraws & Hnames).
      eexists (_ :: new), (suffix :: suffixes). rewrite <- app_assoc.
      split; [done |]. split.
      * simpl. unfold bind. by rewrite Hrand, Hdraws.
      * unfold other_names. rewrite fmap_cons, filter_cons_True.
        -- rewrite fmap_cons. by f_equal.
        -- simpl. intros [= H]. by apply append_suffix_differs in H.
    + unfold ret at 1. intros Hrest.
      apply IH in Hrest as (new & suffixes & -> & Hdraws & Hnames).
      eexists (_ :: new), suffixes. rewrite <- app_assoc.
      split; [done |]. split; [done |].
      unfold other_names. rewrite fmap_cons, filter_cons_False; [done |].
      simpl. rewrite Hname. by intros H.
Qed.

(** C2, as amended.  For a composed template with a non-empty name whose
    source type identifier is not on the skip list, and whose base is
    converted into the envelopes [converted]: the produced template that
    keeps the name of the source is the first one whose kind is the
    kind of the source; every other produced template (those after it,
    and those of another kind, the first produced one included) is named
    by the name of the source, a dash and a random suffix, which is not
    the name of the source.  The suffixes are random: taken in the order
    of the templates, they are the strings that as many successive calls
    of [rand.String(5)] return, the fan-out acting on the world through
    these calls only. *)
Theorem fan_out_naming (pg : PlanGenerator) (cmp : xpv1_ComposedTemplate)
    (gvk : schema_GroupVersionKind) (patchSets : list xpv1_PatchSet)
    (convertedPS : list string) (original : string)
    (converted : list UnstructuredWithMetadata)
    (cmps : list xpv1_ComposedTemplate) (w w' : World) :
  isGVKSkipped pg gvk = false →
  Name cmp = Some original →
  original ≠ "" →
  convertComposition_targets pg cmp gvk patchSets convertedPS converted
    [] false w
  = (Returns (cmps, None), w') →
  length cmps = length converted
  ∧ (∀ i c, cmps !! i = Some c →
       (keeps_source_name gvk converted i → Name c = Some original)
       ∧ (¬ keeps_source_name gvk converted i →
          generated_name original c ∧ Name c ≠ Some original))
  ∧ ∃ suffixes,
      draws (length suffixes) w = (Returns suffixes, w')
      ∧ other_names original cmps
        = (λ suffix, Some (original +:+ "-" +:+ suffix)) <$> suffixes.
Proof.
  intros Hskip Hname Hne Hrun.
  destruct (targets_draws pg cmp gvk patchSets convertedPS original
              converted Hskip Hname Hne [] cmps false w w' Hrun)
    as (new' & suffixes & Hnew' & Hdraws & Hnames).
  destruct (targets_naming pg cmp gvk patchSets convertedPS original
              converted Hskip Hname Hne [] cmps false w w' Hrun)
    as (new & -> & Hlen & Hnew).
  split; [done |]. split.
  - intros i c Hc. simpl in Hc.
    destruct (Hnew i c Hc) as [Hkeep Hgen]. split.
    + intros Hk. by apply Hkeep.
    + intros Hnk. assert (generated_name original c) as Hg.
      { apply Hgen. by right. }
      split; [done |]. by apply generated_name_differs.
  - exists suffixes. split; [done |]. simpl in Hnew'. by rewrite Hnew'.
Qed.

(** *** Composition conversion *)

Lemma convertResource_converted (pg : PlanGenerator)
    (o : UnstructuredWithMetadata) (compositionContext : bool)
    (w w' : World) (targets : list UnstructuredWithMetadata)
    (converted : bool) :
  convertResource pg o compositionContext w
  = (Returns (targets, converted, None), w') →
  converted = true
  ↔ is_Some (resourceConverters (registry pg)
               !! u_GroupVersionKind (Object o)).
Proof.
  unfold convertResource.
  destruct (resourceConverters (registry pg) !! _) as [conv|] eqn:Hconv.
  2:{ eff. intros [= <- <- <-]. split; [done | by intros [? ?]]. }
  destruct (toManagedResource (scheme (registry pg)) (Object o))
    as [[mg ok] [e0|]];
    [eff; simpl; congruence |].
  eff. destruct (Resource conv mg w) as [[[[mg' resources] [e1|]]|] w1];
    [simpl; congruence | | congruence].
  destruct (assertGVK resources); [simpl; congruence |].
  destruct (negb compositionContext); [destruct mg |]; simpl;
    intros [= <- <- <-] || intros [=]; by split.
Qed.

Lemma convertComposition_range_converted (pg : PlanGenerator)
    (o : UnstructuredWithMetadata) (patchSets : list xpv1_PatchSet)
    (convertedPS : list string) (resources : list xpv1_ComposedTemplate) :
  ∀ (targetResources : list xpv1_ComposedTemplate) (isConverted : bool)
    (w w' : World) (targets : list xpv1_ComposedTemplate) (flag : bool),
    convertComposition_range pg o patchSets convertedPS resources
      targetResources isConverted w
    = (Returns (targets, flag, None), w') →
    flag = true
    ↔ isConverted = true
      ∨ ∃ cmp, cmp ∈ resources ∧ base_has_converter pg cmp.
Proof.
  induction resources as [|cmp resources IH];
    intros targetResources isConverted w w' targets flag; simpl.
  - eff. intros [= <- <- <-]. split; [by left |].
    intros [H | (cmp & Hin & _)]; [done | by apply elem_of_nil in Hin].
  - destruct (FromRawExtension (Base cmp)) as [u|e] eqn:Hraw;
      [| eff; done].
    unfold bind at 1.
    destruct (convertResource pg _ true w) as [[[[converted ok] err]|] w1]
      eqn:Hconv; [| done].
    destruct err as [e|]; [eff; done |].
    apply convertResource_converted in Hconv. simpl in Hconv.
    unfold bind at 1.
    destruct (convertComposition_targets _ _ _ _ _ _ _ _ w1)
      as [[[cmps err]|] w2]; [| done].
    destruct err as [e|]; [eff; done |].
    unfold bind at 1.
    match goal with
    | |- context [match ?m w2 with _ => _ end] =>
        destruct (m w2) as [[[cmps' err]|] w3]; [| done]
    end.
    destruct err as [e|]; [eff; done |].
    intros Hrest. apply IH in Hrest. rewrite Hrest.
    rewrite orb_true_iff, Hconv. split.
    + intros [[H | H] | (cmp' & Hin & Hb)].
      * by left.
      * right. exists cmp. split; [apply list_elem_of_here |].
        by exists u.
      * right. exists cmp'. split; [by apply list_elem_of_further | done].
    + intros [H | (cmp' & Hin & Hb)]; [by left; left |].
      apply elem_of_cons in Hin as [-> | Hin].
      * left. right. destruct Hb as (u' & Hu' & Hsome). congruence.
      * right. by exists cmp'.
Qed.

(** C1, as amended.  When [convertComposition] returns without an error,
    the converted flag is true exactly when the base of at least one
    composed template of the composition (as decoded after the patch-set
    conversion) has a registered resource converter, that is when the
    conversion of some base reports converted; the names of the patch
    sets that the patch-set converters changed have no part in it. *)
Theorem composition_converted_flag (pg : PlanGenerator)
    (o o' : UnstructuredWithMetadata)
    (target : option UnstructuredWithMetadata) (converted : bool)
    (w w' : World) :
  convertComposition pg o w = (Returns (o', target, converted, None), w') →
  ∃ convertedPS w1 comp,
    convertPatchSets pg o w = (Returns (o', convertedPS, None), w1)
    ∧ convertToComposition (Object o') = Success comp
    ∧ (converted = true
       ↔ ∃ cmp, cmp ∈ Spec_Resources comp ∧ base_has_converter pg cmp).
Proof.
  unfold convertComposition. unfold bind at 1.
  destruct (convertPatchSets pg o w) as [[[[o1 convertedPS] err]|] w1];
    [| done].
  destruct err as [e|]; [eff; done |].
  destruct (convertToComposition (Object o1)) as [comp|e] eqn:Hcomp;
    [| eff; done].
  unfold bind at 1.
  destruct (convertComposition_range _ _ _ _ _ _ _ w1)
    as [[[[targets flag] err]|] w2] eqn:Hrange; [| done].
  destruct err as [e|]; [eff; done |].
  eff. intros [= <- <- <- <-].
  exists convertedPS, w1, comp. split; [done |]. split; [done |].
  rewrite (convertComposition_range_converted _ _ _ _ _ _ _ _ _ _ _ Hrange).
  split; [by intros [? | ?] | by right].
Qed.

(** *** Configuration conversion *)

Lemma convertConfiguration_range_fresh (o : UnstructuredWithMetadata)
    (convs : list configurationConverter) :
  ∀ (conf : option metav1_Object) (isConverted : bool) (w : World),
    convertConfiguration_range convs o conf isConverted w
    = invoke_on_fresh_objects o
        (omap (applicable (u_GetName (Object o))) convs) conf isConverted w.
Proof.
  induction convs as [|confConv convs IH]; intros conf isConverted w;
    simpl; [done |].
  unfold applicable at 1.
  destruct (conf_re confConv) as [re|]; [| apply IH].
  destruct (conf_converter confConv) as [converter|]; [| apply IH].
  destruct (MatchString re (u_GetName (Object o))); simpl; [| apply IH].
  destruct (toConfiguration (Object o)) as [fresh|e]; [| done].
  unfold invoke, invoke_failed. eff.
  destruct (String.eqb _ "v1alpha1"); destruct fresh as [c|c]; try done.
  - destruct (ConfigurationV1Alpha1 converter c w) as [[[c' [e|]]|] w1];
      simpl; first [done | apply IH].
  - destruct (ConfigurationV1 converter c w) as [[[c' [e|]]|] w1];
      simpl; first [done | apply IH].
Qed.

Lemma invoke_on_fresh_objects_flag (o : UnstructuredWithMetadata)
    (converters : list ConfigurationConverter) :
  ∀ (conf conf' : option metav1_Object) (isConverted flag : bool)
    (w w' : World),
    invoke_on_fresh_objects o converters conf isConverted w
    = (Returns (conf', flag, None), w') →
    flag = true ↔ isConverted = true ∨ converters ≠ [].
Proof.
  induction converters as [|converter converters IH];
    intros conf conf' isConverted flag w w'; simpl.
  - eff. intros [= <- <- <-]. split; [by left | by intros [? | ?]].
  - destruct (toConfiguration (Object o)) as [fresh|e]; [| eff; done].
    unfold bind at 1.
    destruct (invoke o converter fresh w) as [[[c [e|]]|] w1];
      [eff; done | | done].
    intros Hrest. apply IH in Hrest. rewrite Hrest.
    split; [by right | by left].
Qed.

Lemma matchingConverters_nonempty (pg : PlanGenerator)
    (o : UnstructuredWithMetadata) :
  matchingConverters pg o ≠ []
  ↔ ∃ confConv,
      confConv ∈ configurationConverters (registry pg)
      ∧ is_Some (applicable (u_GetName (Object o)) confConv).
Proof.
  unfold matchingConverters.
  generalize (configurationConverters (registry pg)) as convs.
  induction convs as [|confConv convs IH]; simpl.
  - split; [done | intros (c & Hin & _); by apply elem_of_nil in Hin].
  - destruct (applicable _ confConv) as [converter|] eqn:Happ.
    + split; [intros _ | done].
      exists confConv. split; [apply list_elem_of_here |].
      rewrite Happ. by eexists.
    + rewrite IH. split.
      * intros (c & Hin & Hc). exists c.
        split; [by apply list_elem_of_further | done].
      * intros (c & Hin & Hc). apply elem_of_cons in Hin as [-> | Hin].
        -- rewrite Happ in Hc. by destruct Hc.
        -- by exists c.
Qed.

(** What [convertConfiguration] does, whatever the registry:  it
    invokes, in registration order, the converter of every registry entry
    that has a pattern and a converter and whose pattern matches the name
    of the object, each one against a decoding of its own of the object,
    so that no converter sees what the previous ones wrote; and when it
    returns without an error, the converted flag is true exactly when at
    least one entry applied, whatever the converters did to the
    configuration. *)
Lemma configuration_converters_run_on_fresh_objects (pg : PlanGenerator)
    (o : UnstructuredWithMetadata) :
  (∀ w,
     convertConfiguration pg o w
     = (let* (conf, isConverted, err) :=
          invoke_on_fresh_objects o (matchingConverters pg o) None false in
        match err with
        | Some _ => ret (None, false, err)
        | None => ret (sanitized o conf, isConverted, None)
        end) w)
  ∧ (∀ w w' target isConverted,
       convertConfiguration pg o w
       = (Returns (target, isConverted, None), w') →
       isConverted = true
       ↔ ∃ confConv,
           confConv ∈ configurationConverters (registry pg)
           ∧ is_Some (applicable (u_GetName (Object o)) confConv)).
Proof.
  assert (∀ w,
     convertConfiguration pg o w
     = (let* (conf, isConverted, err) :=
          invoke_on_fresh_objects o (matchingConverters pg o) None false in
        match err with
        | Some _ => ret (None, false, err)
        | None => ret (sanitized o conf, isConverted, None)
        end) w) as Heq.
  { intros w. unfold convertConfiguration, bind, matchingConverters.
    by rewrite convertConfiguration_range_fresh. }
  split; [exact Heq |].
  intros w w' target isConverted. rewrite Heq. unfold bind at 1.
  destruct (invoke_on_fresh_objects _ _ _ _ w)
    as [[[[conf flag] err]|] w1] eqn:Hrun; [| done].
  destruct err as [e|]; [eff; done |].
  eff. intros [= <- <- <-].
  rewrite (invoke_on_fresh_objects_flag _ _ _ _ _ _ _ _ Hrun).
  rewrite <- matchingConverters_nonempty. split; [by intros [? | ?] | by right].
Qed.

(** *** The main pass *)

Lemma convert_range_app (pg : PlanGenerator) (before after : Source) :
  ∀ (l0 : Locals) (st0 : State),
    convert_range pg (before ++ after) l0 st0
    = match convert_range pg before l0 st0 with
      | (Returns (l, None), st) => convert_range pg after l st
      | stopped => stopped
      end.
Proof.
  induction before as [|[e|e|o] before IH]; intros l0 st0; simpl;
    try done.
  unfold bind.
  destruct (convert_object pg o l0 st0) as [[[l [e|]]|] st];
    first [done | apply IH].
Qed.

(** C3.  When the registered converter of an object returns a list of
    resources of which one has a zero type identifier, [convertResource]
    returns the missing-GVK error (wrapped as a resource migration
    failure), in and out of a composition.  When the source yields such
    an object as a plain resource, generation aborts on it: the main loop
    of [convert] stops with that error and with the plan as the objects
    before it left it, so that no step is added for the object, the only
    trace of it being what its converter did to the world; [convert]
    returns the error without the three passes that follow the loop; and
    [GeneratePlan] returns it as a plan generation failure, with the
    steps of the objects before it committed. *)
Theorem missing_type_identifier_aborts (pg : PlanGenerator)
    (o : UnstructuredWithMetadata) (conv : ResourceConverter)
    (mg mg' : option Managed) (ok : bool) (resources : list Managed)
    (w w' : World) :
  resourceConverters (registry pg) !! u_GroupVersionKind (Object o)
  = Some conv →
  toManagedResource (scheme (registry pg)) (Object o) = (mg, ok, None) →
  Resource conv mg w = (Returns (mg', resources, None), w') →
  (∃ r, r ∈ resources ∧ IsZero (mg_GroupVersionKind r) = true) →
  let missing :=
    errors_WithMessage
      (errors_WithMessage (errors_New errMissingGVK) errResourceMigrate)
      errResourceMigrate in
  (∀ compositionContext,
     convertResource pg o compositionContext w
     = (Returns ([], true,
                 Some (errors_WithMessage (errors_New errMissingGVK)
                                          errResourceMigrate)), w'))
  ∧ (plain_resource o →
     ∀ before after,
       (∀ l0 st0 l st,
          convert_range pg before l0 st0 = (Returns (l, None), st) →
          world st = w →
          convert_range pg (before ++ Next_yields o :: after) l0 st0
          = (Returns (l, Some missing),
             {| pg_Plan := pg_Plan st; world := w' |}))
       ∧ (∀ st0 l st,
            convert_range pg before Locals_empty st0
            = (Returns (l, None), st) →
            world st = w →
            convert pg (before ++ Next_yields o :: after) st0
            = (Returns (Some missing),
               {| pg_Plan := pg_Plan st; world := w' |}))
       ∧ (∀ commitSteps st0 l st,
            convert_range pg before Locals_empty (GeneratePlan_init st0)
            = (Returns (l, None), st) →
            world st = w →
            GeneratePlan commitSteps pg
              (before ++ Next_yields o :: after) st0
            = (Returns (Some (errors_WithMessage missing
                                                 errPlanGeneration)),
               commitSteps {| pg_Plan := pg_Plan st; world := w' |}))).
Proof.
  intros Hconv Hmg Hres Hzero missing.
  assert (∀ compositionContext,
     convertResource pg o compositionContext w
     = (Returns ([], true,
                 Some (errors_WithMessage (errors_New errMissingGVK)
                                          errResourceMigrate)), w'))
    as Hcr.
  { intros ctx. unfold convertResource. rewrite Hconv, Hmg.
    unfold bind. rewrite Hres.
    apply assertGVK_zero in Hzero. by rewrite Hzero. }
  split; [exact Hcr |].
  intros (Hc1 & Hc2 & Hc3 & Hcat1 & Hcat2) before after.
  assert (∀ l0 st0 l st,
            convert_range pg before l0 st0 = (Returns (l, None), st) →
            world st = w →
            convert_range pg (before ++ Next_yields o :: after) l0 st0
            = (Returns (l, Some missing),
               {| pg_Plan := pg_Plan st; world := w' |})) as Hloop.
  { intros l0 st0 l st Hbefore Hw.
    rewrite convert_range_app, Hbefore. simpl.
    unfold bind at 1. unfold convert_object.
    rewrite !bool_decide_eq_false_2 by done. simpl.
    unfold bind at 1. unfold liftW. rewrite Hw, Hcr. done. }
  split; [exact Hloop |].
  assert (∀ st0 l st,
            convert_range pg before Locals_empty st0
            = (Returns (l, None), st) →
            world st = w →
            convert pg (before ++ Next_yields o :: after) st0
            = (Returns (Some missing),
               {| pg_Plan := pg_Plan st; world := w' |})) as Hconvert.
  { intros st0 l st Hbefore Hw. unfold convert, bind.
    fold Locals_empty. by rewrite (Hloop _ _ _ _ Hbefore Hw). }
  split; [exact Hconvert |].
  intros commitSteps st0 l st Hbefore Hw.
  unfold GeneratePlan, defer, bind.
  by rewrite (Hconvert _ _ _ Hbefore Hw).
Qed.

Lemma convertPatchSets_range_frame (convs : list patchSetConverter) :
  ∀ (o o' : UnstructuredWithMetadata) (converted names : list string)
    (err : option error) (w w' : World),
    convertPatchSets_range convs o converted w
    = (Returns (o', names, err), w') →
    u_GroupVersionKind (Object o') = u_GroupVersionKind (Object o)
    ∧ u_GetName (Object o') = u_GetName (Object o)
    ∧ Metadata_of o' = Metadata_of o.
Proof.
  induction convs as [|psConv convs IH];
    intros o o' converted names err w w'; simpl.
  - eff. by intros [= <- <- <- <-].
  - destruct (ps_re psConv) as [re|]; [| apply IH].
    destruct (ps_converter psConv) as [converter|]; [| apply IH].
    destruct (negb _); [apply IH |].
    destruct (convertToComposition (Object o)) as [c|e];
      [| eff; by intros [= <- <- <- <-]].
    unfold bind at 1.
    destruct (PatchSets converter _ w) as [[[psMap [e|]]|] w1];
      [eff; by intros [= <- <- <- <-] | | done].
    destruct (fieldpath_SetValue _ _ _) as [fields [e|]].
    + eff. by intros [= <- <- <- <-].
    + intros Hrest. apply IH in Hrest. simpl in Hrest. done.
Qed.

Lemma convertComposition_frame (pg : PlanGenerator)
    (o o' : UnstructuredWithMetadata)
    (target : option UnstructuredWithMetadata) (converted : bool)
    (err : option error) (w w' : World) :
  convertComposition pg o w = (Returns (o', target, converted, err), w') →
  u_GetName (Object o') = u_GetName (Object o)
  ∧ (err = None → is_Some target).
Proof.
  unfold convertComposition. unfold bind at 1.
  destruct (convertPatchSets pg o w) as [[[[o1 convertedPS] e]|] w1]
    eqn:Hps; [| done].
  apply convertPatchSets_range_frame in Hps as (_ & Hname & _).
  destruct e as [e|]; [eff; by intros [= <- <- <- <- <-] |].
  destruct (convertToComposition (Object o1)) as [comp|e];
    [| eff; by intros [= <- <- <- <- <-]].
  unfold bind at 1.
  destruct (convertComposition_range _ _ _ _ _ _ _ w1)
    as [[[[targets flag] e]|] w2]; [| done].
  destruct e as [e|]; eff; intros [= <- <- <- <- <-]; [done |].
  split; [done |]. intros _. by eexists.
Qed.

(** C7.  In the round of the main pass for a composition whose
    conversion returned no error: when the conversion reports converted,
    the old name is mapped to the old name followed by [-migrated] in
    the local map of converted compositions, and [stepNewComposition] is
    called on the converted composition renamed to that new name, after
    which the round goes on to the extra steps of the object unless the
    step failed; when the conversion reports not converted, the round
    goes on to the extra steps with the local map and the plan as the
    conversion found them, and no [NewComposition] step. *)
Theorem converted_composition_is_renamed (pg : PlanGenerator)
    (o o' : UnstructuredWithMetadata)
    (target : option UnstructuredWithMetadata) (converted : bool)
    (l : Locals) (st : State) (w' : World) :
  u_GroupVersionKind (Object o) = xpv1_CompositionGroupVersionKind →
  convertComposition pg o (world st)
  = (Returns (o', target, converted, None), w') →
  let name := u_GetName (Object o) in
  let migratedName := name +:+ "-migrated" in
  let st1 := {| pg_Plan := pg_Plan st; world := w' |} in
  (converted = true →
   ∃ t renamed l',
     target = Some t
     ∧ renamed = {| Object := u_SetName migratedName (Object t);
                    Metadata_of := Metadata_of t |}
     ∧ u_GetName (Object renamed) = migratedName
     ∧ l' = set_convertedComposition name migratedName l
     ∧ convertedComposition l' !! name = Some migratedName
     ∧ convert_object pg o l st
       = match stepNewComposition renamed st1 with
         | (Returns None, st2) => convert_addSteps o' l' st2
         | (Returns (Some e), st2) =>
             (Returns (l', Some (errors_WithMessage e
                                   (errCompositionMigrateFmt name))), st2)
         | (Panics, st2) => (Panics, st2)
         end)
  ∧ (converted = false →
     convert_object pg o l st = convert_addSteps o' l st1).
Proof.
  intros Hgvk Hconv name migratedName st1.
  pose proof (convertComposition_frame _ _ _ _ _ _ _ _ Hconv)
    as [Hname Htarget].
  assert (convert_object pg o l st
            = (if converted then
                 match target with
                 | Some t =>
                     let l' := set_convertedComposition
                                 (u_GetName (Object o'))
                                 (u_GetName (Object o') +:+ "-migrated")
                                 l in
                     let* err :=
                       stepNewComposition
                         {| Object :=
                              u_SetName
                                (u_GetName (Object o') +:+ "-migrated")
                                (Object t);
                            Metadata_of := Metadata_of t |} in
                     match err with
                     | Some _ =>
                         ret (l', errors_Wrap err
                                    (errCompositionMigrateFmt
                                       (u_GetName (Object o'))))
                     | None => convert_addSteps o' l'
                     end
                 | None => panic
                 end
               else convert_addSteps o' l) st1) as Hround.
  { unfold convert_object. rewrite Hgvk. simpl.
    unfold bind at 1. unfold liftW. by rewrite Hconv. }
  rewrite Hname in Hround.
  split; intros ->.
  - destruct (Htarget eq_refl) as [t ->].
    eexists t, _, _. split; [done |]. split; [done |]. split; [done |].
    split; [done |]. split; [simpl; apply lookup_insert_eq |].
    rewrite Hround. subst name migratedName st1. simpl. unfold bind at 1.
    destruct (stepNewComposition _ _) as [[[e|]|] st2]; done.
  - exact Hround.
Qed.

(** *** The commit of the steps *)

Lemma kept_ret (commits : State → nat) {A : Type} (a : A) :
  kept_by commits (ret a).
Proof. by intros st. Qed.

Lemma kept_panic (commits : State → nat) {A : Type} :
  kept_by commits (@panic State A).
Proof. by intros st. Qed.

Lemma kept_bind (commits : State → nat) {A B : Type} (m : Eff State A)
    (k : A → Eff State B) :
  kept_by commits m → (∀ a, kept_by commits (k a)) →
  kept_by commits (bind m k).
Proof.
  intros Hm Hk st. unfold bind. specialize (Hm st).
  destruct (m st) as [[a|] st1]; simpl in *; [| done].
  by rewrite Hk.
Qed.

Lemma kept_liftW (commits : State → nat) {A : Type} (m : Eff World A) :
  (∀ st w, commits {| pg_Plan := pg_Plan st; world := w |} = commits st) →
  kept_by commits (liftW m).
Proof.
  intros Hframe st. unfold liftW.
  destruct (m (world st)) as [r w]. simpl. apply Hframe.
Qed.

Ltac kept_step :=
  first
    [ apply kept_ret
    | apply kept_panic
    | apply kept_liftW; assumption
    | match goal with
      | H : ∀ x y z, kept_by _ (?f x y z) |- kept_by _ (?f _ _ _) => apply H
      | H : ∀ x y, kept_by _ (?f x y) |- kept_by _ (?f _ _) => apply H
      | H : ∀ x, kept_by _ (?f x) |- kept_by _ (?f _) => apply H
      end
    | apply kept_bind; [| intros ?]
    | match goal with
      | |- kept_by _ (match ?x with _ => _ end) => destruct x
      | |- kept_by _ (if ?b then _ else _) => destruct b
      end ].

Section Commit.
Variable commits : State → nat.
Hypothesis Hkept : kept_by_steps commits.

Lemma convert_targets_kept (targets : list UnstructuredWithMetadata) :
  kept_by commits (convert_targets targets).
Proof.
  destruct Hkept as (Hw & _ & _ & _ & Hnew & Hstart & _).
  induction targets as [|tu targets IH]; simpl; repeat kept_step.
  exact IH.
Qed.

Lemma convert_object_kept (pg : PlanGenerator)
    (o : UnstructuredWithMetadata) (l : Locals) :
  kept_by commits (convert_object pg o l).
Proof.
  pose proof convert_targets_kept as Htargets.
  destruct Hkept
    as (Hw & Hedit & Hcomp & Hpause & Hnew & Hstart & Hadd & _).
  unfold convert_object, convert_addSteps. repeat kept_step.
Qed.

Lemma convert_range_kept (pg : PlanGenerator) (source : Source) :
  ∀ l, kept_by commits (convert_range pg source l).
Proof.
  pose proof convert_object_kept as Hobject.
  induction source as [|[e|e|o] source IH]; intros l; simpl;
    repeat kept_step.
Qed.

Lemma convert_kept (pg : PlanGenerator) (source : Source) :
  kept_by commits (convert pg source).
Proof.
  pose proof (convert_range_kept pg source) as Hrange.
  destruct Hkept as (_ & _ & _ & _ & _ & _ & _ & Hcs & Hstart & Hclaims).
  unfold convert. repeat kept_step.
Qed.
End Commit.

(** C5.  [GeneratePlan] runs [commitSteps] once, on the state that
    [convert] leaves, whichever way [convert] leaves: with a nil error,
    with an error of any of its stages (which [GeneratePlan] wraps), or
    by a panic.  So for every count of the commits of a plan, that is an
    observation of the plan that the step methods leave as it was and that
    [commitSteps] increases by one, a run of [GeneratePlan] increases the
    count by exactly one. *)
Theorem steps_are_committed_on_every_exit (commitSteps : State → State)
    (pg : PlanGenerator) (source : Source) (st : State) :
  (∃ (r : outcome (option error)) (st' : State),
     convert pg source (GeneratePlan_init st) = (r, st')
     ∧ GeneratePlan commitSteps pg source st
       = (match r with
          | Returns None => Returns None
          | Returns (Some e) =>
              Returns (Some (errors_WithMessage e errPlanGeneration))
          | Panics => Panics
          end, commitSteps st'))
  ∧ (∀ commits : State → nat,
       kept_by_steps commits →
       (∀ st', commits (commitSteps st') = S (commits st')) →
       commits (GeneratePlan commitSteps pg source st).2
       = S (commits (GeneratePlan_init st))).
Proof.
  assert (∃ (r : outcome (option error)) (st' : State),
     convert pg source (GeneratePlan_init st) = (r, st')
     ∧ GeneratePlan commitSteps pg source st
       = (match r with
          | Returns None => Returns None
          | Returns (Some e) =>
              Returns (Some (errors_WithMessage e errPlanGeneration))
          | Panics => Panics
          end, commitSteps st')) as Hrun.
  { destruct (convert pg source (GeneratePlan_init st)) as [r st'] eqn:Hrun.
    exists r, st'. split; [done |].
    unfold GeneratePlan, defer, bind. rewrite Hrun.
    by destruct r as [[e|]|]. }
  split; [exact Hrun |].
  intros commits Hkept Hcommit.
  destruct Hrun as (r & st' & Hconvert & ->). simpl.
  rewrite Hcommit. f_equal.
  pose proof (convert_kept commits Hkept pg source (GeneratePlan_init st))
    as Hsame.
  by rewrite Hconvert in Hsame.
Qed.
End Properties.

(** ** The generator at work

    The properties above on the concrete generator, and the inputs on
    which the generator departs from the wording of the specification. *)

(** The generator on small inputs. *)

Example wildcard_group_skips_any_group :
  isGVKSkipped
    (NewPlanGenerator (demo_registry [] [] [])
       [WithSkipGVKs [{| Group := ""; Version := "v1"; Kind := "Bucket" |}]])
    (demo_gvk "Bucket") = true.
Proof. reflexivity. Qed.

Example other_kind_is_not_skipped :
  isGVKSkipped demo_pg_skip (demo_gvk "BucketACL") = false.
Proof. reflexivity. Qed.

Example core_group_version : GroupVersion_String
    {| Group := ""; Version := "v1"; Kind := "Secret" |} = "v1"
  ∧ GroupVersion_String (demo_gvk "Bucket") = "demo.example.org/v1".
Proof. split; reflexivity. Qed.

Example nameless_resource_gets_a_prefix :
  assertMetadataName "logs"
    [demo_toManaged (Object (demo_object (demo_gvk "Bucket") "" Doc_empty
                               CategoryManaged));
     demo_toManaged (Object demo_bucket)]
  = [mg_SetGenerateName "logs-"
       (demo_toManaged (Object (demo_object (demo_gvk "Bucket") "" Doc_empty
                                  CategoryManaged)));
     demo_toManaged (Object demo_bucket)].
Proof. reflexivity. Qed.

(** A composition and a bucket, with the converter that splits buckets:
    one [NewComposition] step for [xbuckets-migrated], and a
    [NewManagedResource] and a [StartManagedResource] step for each of the
    two replacements of the bucket. *)
Example generation_end_to_end :
  ∃ st,
    GeneratePlan demo_commitSteps demo_pg_fanout
      [Next_yields demo_composition; Next_yields demo_bucket] demo_state
    = (Returns None, st)
    ∧ Plan_Version (pg_Plan st) = "0.1.0"
    ∧ Spec_Steps (pg_Plan st)
      = [["xbuckets-migrated"]; ["logs"; "logs"]; ["logs"; "logs"]].
Proof. eexists. split; [reflexivity |]. split; reflexivity. Qed.

(** A failing source: the error of [HasNext] comes back wrapped twice. *)
Example source_failure :
  ∃ st,
    GeneratePlan demo_commitSteps demo_pg_fanout
      [Next_yields demo_claim; HasNext_fails (errors_New "connection lost")]
      demo_state
    = (Returns (Some (errors_WithMessage
                        (errors_WithMessage (errors_New "connection lost")
                                            errSourceHasNext)
                        errPlanGeneration)), st).
Proof. eexists. reflexivity. Qed.

(** C1 at work: the composition of the example, converted by the generator
    that splits buckets. *)
Lemma composition_converted_flag_witness :
  ∃ convertedPS w1 comp,
    convertPatchSets demo_pg_fanout demo_composition 0
    = (Returns (demo_composition, convertedPS, None), w1)
    ∧ convertToComposition (Object demo_composition) = Success comp
    ∧ (true = true
       ↔ ∃ cmp, cmp ∈ Spec_Resources comp
                ∧ base_has_converter demo_pg_fanout cmp).
Proof.
  apply (composition_converted_flag demo_pg_fanout demo_composition
           demo_composition (Some demo_converted_composition) true 0 1).
  reflexivity.
Defined.

(** C1, the counterexample: the patch-set converter of [demo_pg_patchsets]
    changes the patch set [common] of the composition and no composed
    template has a resource converter; the composition comes back with the
    converted flag false. *)
Lemma patch_set_change_is_not_reported :
  ¬ composition_flag_as_worded demo_pg_patchsets demo_composition.
Proof.
  intros Hworded.
  enough (false = true) by done.
  eapply (Hworded 0); [reflexivity | reflexivity | reflexivity |].
  left. done.
Qed.

(** C2 at work: the fan-out of the template [bucket] into a [BucketACL]
    and a [Bucket]. *)
Lemma fan_out_naming_witness :
  length demo_fanout_templates = length demo_converted
  ∧ (∀ i c, demo_fanout_templates !! i = Some c →
       (keeps_source_name (demo_gvk "Bucket") demo_converted i →
        Name c = Some "bucket")
       ∧ (¬ keeps_source_name (demo_gvk "Bucket") demo_converted i →
          generated_name "bucket" c ∧ Name c ≠ Some "bucket"))
  ∧ ∃ suffixes,
      draws (length suffixes) 0 = (Returns suffixes, 1)
      ∧ other_names "bucket" demo_fanout_templates
        = (λ suffix, Some ("bucket" +:+ "-" +:+ suffix)) <$> suffixes.
Proof.
  apply (fan_out_naming demo_pg_fanout demo_template (demo_gvk "Bucket")
           [] [] "bucket" demo_converted demo_fanout_templates 0 1).
  - reflexivity.
  - reflexivity.
  - discriminate.
  - reflexivity.
Defined.

(** C2, the counterexample: when the first produced template is of
    another kind than the source, it is the one that is renamed, and the
    second one, of the kind of the source, keeps the name [bucket]. *)
Lemma first_template_of_another_kind_is_renamed :
  convertComposition_targets demo_pg_fanout demo_template (demo_gvk "Bucket")
    [] [] demo_converted [] false 0
  = (Returns (demo_fanout_templates, None), 1)
  ∧ ¬ naming_as_worded "bucket" (demo_gvk "Bucket") demo_converted
        demo_fanout_templates.
Proof.
  split; [reflexivity |].
  intros (Hfirst & _ & _). specialize (Hfirst _ eq_refl). discriminate.
Qed.

(** C3 at work: a bucket whose converter returns a resource without a type
    identifier, after a claim. *)
Lemma missing_type_identifier_aborts_witness :
  (∀ compositionContext,
     convertResource demo_pg_unstamped demo_bucket compositionContext 0
     = (Returns ([], true,
                 Some (errors_WithMessage (errors_New errMissingGVK)
                                          errResourceMigrate)), 0))
  ∧ convert_range demo_pg_unstamped
      ([Next_yields demo_claim] ++ [Next_yields demo_bucket]) demo_locals
      demo_state
    = (Returns (append_claims demo_claim demo_locals,
                Some (errors_WithMessage
                        (errors_WithMessage (errors_New errMissingGVK)
                                            errResourceMigrate)
                        errResourceMigrate)),
       {| pg_Plan := pg_Plan demo_state; world := 0 |})
  ∧ convert demo_pg_unstamped
      ([Next_yields demo_claim] ++ [Next_yields demo_bucket]) demo_state
    = (Returns (Some (errors_WithMessage
                        (errors_WithMessage (errors_New errMissingGVK)
                                            errResourceMigrate)
                        errResourceMigrate)),
       {| pg_Plan := pg_Plan demo_state; world := 0 |})
  ∧ GeneratePlan demo_commitSteps demo_pg_unstamped
      ([Next_yields demo_claim] ++ [Next_yields demo_bucket]) demo_state
    = (Returns (Some (errors_WithMessage
                        (errors_WithMessage
                           (errors_WithMessage (errors_New errMissingGVK)
                                               errResourceMigrate)
                           errResourceMigrate)
                        errPlanGeneration)),
       demo_commitSteps
         {| pg_Plan := pg_Plan (GeneratePlan_init demo_state);
            world := 0 |}).
Proof.
  destruct (missing_type_identifier_aborts demo_pg_unstamped demo_bucket
              (demo_fanout [{| Group := ""; Version := ""; Kind := "" |}])
              (Some (demo_toManaged (Object demo_bucket)))
              (Some (demo_toManaged (Object demo_bucket))) true
              [demo_stamp {| Group := ""; Version := ""; Kind := "" |}
                          (demo_toManaged (Object demo_bucket))] 0 0)
    as [Hresource Hplan].
  - reflexivity.
  - reflexivity.
  - reflexivity.
  - eexists. split; [apply list_elem_of_here | reflexivity].
  - split; [exact Hresource |].
    assert (plain_resource demo_bucket) as Hplain
      by (repeat split; discriminate).
    destruct (Hplan Hplain [Next_yields demo_claim] [])
      as (Hloop & Hconvert & Hgenerate).
    split; [| split].
    + apply (Hloop demo_locals demo_state
                   (append_claims demo_claim demo_locals) demo_state);
        reflexivity.
    + apply (Hconvert demo_state (append_claims demo_claim demo_locals)
                      demo_state); reflexivity.
    + apply (Hgenerate demo_commitSteps demo_state
                       (append_claims demo_claim demo_locals)
                       (GeneratePlan_init demo_state)); reflexivity.
Defined.

(** C4.  The configuration [platform], which depends on [provider-aws],
    and two converters whose patterns match its name, the first adding
    the dependency [provider-gcp] and the second [provider-azure].  Run
    one after the other against the same decoded object, as the
    specification has it, they leave the three dependencies.
    [convertConfiguration] decodes the object again for the second
    converter and returns what that one left: the dependency that the
    first converter added is lost.  The converted flag is true on both
    sides. *)
Theorem second_converter_discards_the_first :
  convertConfiguration_as_worded demo_pg_configurations demo_configuration 0
  = (Returns (Some (demo_configured
                      ["provider-aws"; "provider-gcp"; "provider-azure"]),
              true, None), 0)
  ∧ convertConfiguration demo_pg_configurations demo_configuration 0
    = (Returns (Some (demo_configured ["provider-aws"; "provider-azure"]),
                true, None), 0).
Proof. split; reflexivity. Qed.

(** C5 at work: a generation that fails on its first object commits once,
    the commits being counted by the markers that [demo_commit_marker]
    appends to the steps of the plan. *)
Lemma steps_are_committed_on_every_exit_witness :
  demo_commits
    (GeneratePlan demo_commit_marker demo_pg_unstamped
       [Next_yields demo_bucket] demo_state).2
  = S (demo_commits (GeneratePlan_init demo_state)).
Proof.
  apply (proj2 (steps_are_committed_on_every_exit demo_commit_marker
                  demo_pg_unstamped [Next_yields demo_bucket] demo_state)
               demo_commits).
  - repeat split; intros; reflexivity.
  - intros st'. unfold demo_commits, demo_commit_marker. simpl.
    rewrite length_app. simpl. lia.
Defined.

(** C6 at work: the entry [(any group, any version, Bucket)] skips the
    buckets of the concrete generator. *)
Lemma skip_list_wildcard_matching_witness :
  isGVKSkipped demo_pg_skip (demo_gvk "Bucket") = true
  ∧ setDefaultsOnTargetTemplate demo_pg_skip (Some "bucket") true
      (demo_gvk "Bucket") (demo_gvk "BucketACL") demo_template [] [] 0
    = (Returns (true, demo_template, None), 0).
Proof.
  split; [reflexivity |].
  apply (skip_list_wildcard_matching demo_pg_skip (demo_gvk "Bucket")).
  reflexivity.
Defined.

(** C7 at work: the round of the main pass for the composition of the
    example, which [demo_pg_fanout] converts. *)
Lemma converted_composition_is_renamed_witness :
  ∃ t renamed l',
    Some demo_converted_composition = Some t
    ∧ renamed = {| Object := u_SetName "xbuckets-migrated" (Object t);
                   Metadata_of := Metadata_of t |}
    ∧ u_GetName (Object renamed) = "xbuckets-migrated"
    ∧ l' = set_convertedComposition "xbuckets" "xbuckets-migrated"
             demo_locals
    ∧ convertedComposition l' !! "xbuckets" = Some "xbuckets-migrated"
    ∧ convert_object demo_pg_fanout demo_composition demo_locals demo_state
      = match stepNewComposition renamed
                {| pg_Plan := pg_Plan demo_state; world := 1 |} with
        | (Returns None, st2) => convert_addSteps demo_composition l' st2
        | (Returns (Some e), st2) =>
            (Returns (l', Some (errors_WithMessage e
                                  (errCompositionMigrateFmt "xbuckets"))),
             st2)
        | (Panics, st2) => (Panics, st2)
        end.
Proof.
  assert (convertComposition demo_pg_fanout demo_composition
            (world demo_state)
          = (Returns (demo_composition, Some demo_converted_composition,
                      true, None), 1)) as Hrun by reflexivity.
  apply (proj1 (converted_composition_is_renamed demo_pg_fanout
                  demo_composition demo_composition
                  (Some demo_converted_composition) true demo_locals
                  demo_state 1 eq_refl Hrun) eq_refl).
Defined.

(** C8 at work: a bucket and a registry without resource converters. *)
Lemma convertResource_without_converter_witness :
  convertResource demo_pg_patchsets demo_bucket false 0
  = (Returns ([demo_bucket], false, None), 0).
Proof.
  apply (convertResource_without_converter demo_pg_patchsets demo_bucket
           false 0).
  reflexivity.
Defined.


(** C10 at work: the fan-out of a template without a name. *)
Lemma unnamed_template_is_never_renamed_witness :
  ∃ cmps err,
    convertComposition_targets demo_pg_fanout demo_unnamed_template
      (demo_gvk "Bucket") [] [] demo_converted [] false 0
    = (Returns (cmps, err), 0)
    ∧ (err = None →
       length cmps = length demo_converted
       ∧ Forall (λ c, Name c = Name demo_unnamed_template) cmps).
Proof.
  apply (proj2 (unnamed_template_is_never_renamed demo_pg_fanout
                  demo_unnamed_template (demo_gvk "Bucket") [] []
                  (or_introl eq_refl)) demo_converted 0).
Defined.

(** ** Further properties of the generator *)

Section Further.
Context {C : Carriers} {X : Collaborators}.

(** *** The assertions on converted resources *)

Lemma IsZero_components (gvk : schema_GroupVersionKind) :
  IsZero gvk = false ↔ Group gvk ≠ "" ∨ Version gvk ≠ "" ∨ Kind gvk ≠ "".
Proof.
  unfold IsZero. destruct gvk as [g v k]; simpl.
  rewrite bool_decide_eq_false. split.
  - intros Hne.
    destruct (decide (g = "")) as [-> |]; [| by left].
    destruct (decide (v = "")) as [-> |]; [| by right; left].
    destruct (decide (k = "")) as [-> |]; [done | by right; right].
  - intros [H | [H | H]] [= -> -> ->]; done.
Qed.

(** X1.  [assertGVK] returns nil exactly when every resource has a type
    identifier with a non-empty group, version or kind; whatever the
    number of unstamped resources, its error is the one missing-GVK
    error. *)
Theorem assertGVK_accepts_stamped (resources : list Managed) :
  (assertGVK resources = None
   ↔ ∀ r, r ∈ resources →
       Group (mg_GroupVersionKind r) ≠ ""
       ∨ Version (mg_GroupVersionKind r) ≠ ""
       ∨ Kind (mg_GroupVersionKind r) ≠ "")
  ∧ (assertGVK resources = None
     ∨ assertGVK resources = Some (errors_New errMissingGVK)).
Proof.
  induction resources as [|r resources [IH1 IH2]]; simpl.
  - split; [| by left]. split; [| done].
    intros _ r Hr. by apply elem_of_nil in Hr.
  - destruct (IsZero (mg_GroupVersionKind r)) eqn:Hz.
    + split; [| by right]. split; [done |].
      intros Hall. exfalso.
      assert (IsZero (mg_GroupVersionKind r) = false) as Hf.
      { apply IsZero_components, Hall, list_elem_of_here. }
      congruence.
    + split; [| exact IH2]. rewrite IH1. split.
      * intros Hall r' Hr'. apply elem_of_cons in Hr' as [-> | Hr'].
        -- by apply IsZero_components.
        -- by apply Hall.
      * intros Hall r' Hr'. apply Hall. by apply list_elem_of_further.
Qed.

Lemma length_nonzero (s : string) :
  negb (String.length s =? 0)%nat = true ↔ s ≠ "".
Proof. destruct s; simpl; split; done. Qed.

Lemma assertMetadataName_lookup (parentName : string)
    (resources : list Managed) (i : nat) :
  assertMetadataName parentName resources !! i
  = (λ r, if negb (String.length (mg_GetName r) =? 0)%nat
             || negb (String.length (mg_GetGenerateName r) =? 0)%nat
          then r else mg_SetGenerateName (parentName +:+ "-") r)
    <$> resources !! i.
Proof.
  revert i. induction resources as [|r resources IH]; intros [|i]; simpl;
    first [done | apply IH].
Qed.

(** X2.  [assertMetadataName] keeps the number and the order of the
    resources, their type identifiers, names and other fields; a resource
    that has a name or a generated-name prefix is left as it is, any other
    gets the name of the parent and a dash as its prefix; so afterwards
    every resource has a name or a generated-name prefix. *)
Theorem assertMetadataName_names_every_resource (parentName : string)
    (resources : list Managed) :
  length (assertMetadataName parentName resources) = length resources
  ∧ (∀ i r, resources !! i = Some r →
       ∃ r', assertMetadataName parentName resources !! i = Some r'
             ∧ mg_GroupVersionKind r' = mg_GroupVersionKind r
             ∧ mg_GetName r' = mg_GetName r
             ∧ mg_Fields r' = mg_Fields r
             ∧ (is_named r → r' = r)
             ∧ (¬ is_named r →
                mg_GetGenerateName r' = parentName +:+ "-"))
  ∧ Forall is_named (assertMetadataName parentName resources).
Proof.
  split; [| split].
  - induction resources as [|r resources IH]; simpl; [done | by rewrite IH].
  - intros i r Hr. rewrite assertMetadataName_lookup, Hr. simpl.
    eexists. split; [done |].
    destruct (negb _ || negb _) eqn:Hn.
    + repeat split; try done. intros Hnot. exfalso. apply Hnot.
      apply orb_true_iff in Hn as [Hn | Hn]; apply length_nonzero in Hn;
        [by left | by right].
    + repeat split; try done. intros [Hn' | Hn'];
        apply length_nonzero in Hn'; rewrite Hn' in Hn; simpl in Hn;
        [done | by rewrite orb_true_r in Hn].
  - induction resources as [|r resources IH]; simpl; constructor;
      [| exact IH].
    destruct (negb _ || negb _) eqn:Hn.
    + apply orb_true_iff in Hn as [Hn | Hn]; apply length_nonzero in Hn;
        [by left | by right].
    + right. simpl. destruct parentName; done.
Qed.

(** X3.  [assertMetadataName] is idempotent, also across parents: once it
    ran with one parent name, running it again with any parent name
    changes nothing. *)
Theorem assertMetadataName_idempotent (parentName otherName : string)
    (resources : list Managed) :
  assertMetadataName otherName (assertMetadataName parentName resources)
  = assertMetadataName parentName resources.
Proof.
  induction resources as [|r resources IH]; simpl; [done |].
  rewrite IH. f_equal.
  destruct (negb (String.length (mg_GetName r) =? 0)%nat
            || negb (String.length (mg_GetGenerateName r) =? 0)%nat) eqn:Hn.
  - by rewrite Hn.
  - simpl. replace (String.length (parentName +:+ "-") =? 0)%nat with false.
    + by rewrite orb_true_r.
    + symmetry. apply Nat.eqb_neq. rewrite length_append. simpl. lia.
Qed.

(** *** Resource conversion, when it succeeds *)

(** X4.  When [convertResource] returns a nil error, every returned
    envelope carries the metadata of the source envelope.  With converted
    false the source envelope is returned alone and the world is as it
    was; with converted true there is one envelope per resource that the
    registered converter produced, in the same order, each resource
    sanitized as the converter left it inside a composition, and after
    [assertMetadataName] outside of one, the parent name being the name
    that the decoded source resource has once the converter has run (a
    converter may rename the resource it is handed). *)
Theorem convertResource_envelopes (pg : PlanGenerator)
    (o : UnstructuredWithMetadata) (compositionContext : bool)
    (w w' : World) (targets : list UnstructuredWithMetadata)
    (converted : bool) :
  convertResource pg o compositionContext w
  = (Returns (targets, converted, None), w') →
  Forall (λ t, Metadata_of t = Metadata_of o) targets
  ∧ (converted = false →
     resourceConverters (registry pg) !! u_GroupVersionKind (Object o) = None
     ∧ targets = [o] ∧ w' = w)
  ∧ (converted = true →
     ∃ conv mg ok mg' resources,
       resourceConverters (registry pg) !! u_GroupVersionKind (Object o)
       = Some conv
       ∧ toManagedResource (scheme (registry pg)) (Object o)
         = (mg, ok, None)
       ∧ Resource conv mg w = (Returns (mg', resources, None), w')
       ∧ assertGVK resources = None
       ∧ (compositionContext = true →
          targets = map (enveloped o) resources)
       ∧ (compositionContext = false →
          ∃ m, rewritten mg mg' = Some m
               ∧ targets
                 = map (enveloped o)
                       (assertMetadataName (mg_GetName m) resources))).
Proof.
  unfold convertResource.
  destruct (resourceConverters (registry pg) !! _) as [conv|] eqn:Hconv.
  2:{ eff. intros [= <- <- <-]. split; [by repeat constructor |].
      split; [done | done]. }
  destruct (toManagedResource (scheme (registry pg)) (Object o))
    as [[mg ok] [e0|]] eqn:Hmg; [eff; simpl; congruence |].
  eff.
  destruct (Resource conv mg w) as [[[[mg' resources] [e1|]]|] w1] eqn:Hres;
    [simpl; congruence | | congruence].
  destruct (assertGVK resources) eqn:Hgvk; [simpl; congruence |].
  destruct compositionContext; simpl.
  - intros [= <- <- <-]. split.
    { apply Forall_forall. intros t Ht.
      apply list_elem_of_fmap in Ht as (r & -> & _). done. }
    split; [done |]. intros _. exists conv, mg, ok, mg', resources.
    repeat split; try done.
  - destruct mg as [m|]; simpl; [| congruence].
    intros [= <- <- <-]. split.
    { apply Forall_forall. intros t Ht.
      apply list_elem_of_fmap in Ht as (r & -> & _). done. }
    split; [done |]. intros _. exists conv, (Some m), ok, mg', resources.
    repeat split; try done. intros _. by eexists.
Qed.

(** *** The skip list and the options of the generator *)

Lemma isGVKSkipped_range_app (a b : list schema_GroupVersionKind)
    (sourceGVK : schema_GroupVersionKind) :
  isGVKSkipped_range (a ++ b) sourceGVK
  = isGVKSkipped_range a sourceGVK || isGVKSkipped_range b sourceGVK.
Proof.
  induction a as [|gvk a IH]; simpl; [done |].
  by destruct (gvkMatches gvk sourceGVK).
Qed.

(** X5.  [WithSkipGVKs] replaces the skip list and nothing else, so a
    later [WithSkipGVKs] overrides an earlier one; an empty skip list
    skips nothing, and a skip list skips what one of its parts skips;
    [WithErrorOnInvalidPatchSchema] does not change what is skipped. *)
Theorem skip_list_options (pg : PlanGenerator)
    (a b : list schema_GroupVersionKind)
    (sourceGVK : schema_GroupVersionKind) (e : bool) :
  WithSkipGVKs b (WithSkipGVKs a pg) = WithSkipGVKs b pg
  ∧ registry (WithSkipGVKs a pg) = registry pg
  ∧ ErrorOnInvalidPatchSchema (WithSkipGVKs a pg)
    = ErrorOnInvalidPatchSchema pg
  ∧ isGVKSkipped (WithSkipGVKs [] pg) sourceGVK = false
  ∧ isGVKSkipped (WithSkipGVKs (a ++ b) pg) sourceGVK
    = isGVKSkipped (WithSkipGVKs a pg) sourceGVK
      || isGVKSkipped (WithSkipGVKs b pg) sourceGVK
  ∧ isGVKSkipped (WithErrorOnInvalidPatchSchema e pg) sourceGVK
    = isGVKSkipped pg sourceGVK.
Proof.
  repeat split; try done.
  unfold isGVKSkipped; simpl. apply isGVKSkipped_range_app.
Qed.

(** X6.  Exact matching with an empty group name is not possible: a
    skip-list entry that matches a type identifier of the empty (core)
    group matches the type identifiers of the same version and kind in
    every group. *)
Theorem empty_group_cannot_be_matched_exactly
    (entry sourceGVK otherGVK : schema_GroupVersionKind) :
  gvkMatches entry sourceGVK = true →
  Group sourceGVK = "" →
  Version otherGVK = Version sourceGVK →
  Kind otherGVK = Kind sourceGVK →
  gvkMatches entry otherGVK = true.
Proof.
  unfold gvkMatches. intros Hm Hg Hv Hk. rewrite Hv, Hk.
  rewrite !andb_true_iff in *. destruct Hm as [[Hgroup Hversion] Hkind].
  split; [split |]; try done.
  rewrite Hg in Hgroup. apply orb_true_iff in Hgroup as [H | H].
  - by rewrite H.
  - apply String.eqb_eq in H. by rewrite H.
Qed.

(** *** Patch-set conversion *)

Lemma convertPatchSets_range_fields_only (convs : list patchSetConverter) :
  ∀ (o o' : UnstructuredWithMetadata) (converted names : list string)
    (err : option error) (w w' : World),
    convertPatchSets_range convs o converted w
    = (Returns (o', names, err), w') →
    u_GroupVersionKind (Object o') = u_GroupVersionKind (Object o)
    ∧ u_GetName (Object o') = u_GetName (Object o)
    ∧ u_GetGenerateName (Object o') = u_GetGenerateName (Object o)
    ∧ Metadata_of o' = Metadata_of o
    ∧ (err ≠ None → names = []).
Proof.
  induction convs as [|psConv convs IH];
    intros o o' converted names err w w'; simpl.
  - eff. by intros [= <- <- <- <-].
  - destruct (ps_re psConv) as [re|]; [| apply IH].
    destruct (ps_converter psConv) as [converter|]; [| apply IH].
    destruct (negb _); [apply IH |].
    destruct (convertToComposition (Object o)) as [c|e];
      [| eff; by intros [= <- <- <- <-]].
    unfold bind at 1.
    destruct (PatchSets converter _ w) as [[[psMap [e|]]|] w1];
      [eff; by intros [= <- <- <- <-] | | done].
    destruct (fieldpath_SetValue _ _ _) as [fields [e|]].
    + eff. by intros [= <- <- <- <-].
    + intros Hrest. apply IH in Hrest. simpl in Hrest. done.
Qed.

(** X7.  Whatever the patch-set converters do and however
    [convertPatchSets] returns, the envelope it leaves has the type
    identifier, the name, the generated-name prefix and the metadata of
    the envelope it was handed: only the other fields are rewritten.  With
    an error, the list of converted patch-set names is nil. *)
Theorem convertPatchSets_rewrites_fields_only (pg : PlanGenerator)
    (o o' : UnstructuredWithMetadata) (names : list string)
    (err : option error) (w w' : World) :
  convertPatchSets pg o w = (Returns (o', names, err), w') →
  u_GroupVersionKind (Object o') = u_GroupVersionKind (Object o)
  ∧ u_GetName (Object o') = u_GetName (Object o)
  ∧ u_GetGenerateName (Object o') = u_GetGenerateName (Object o)
  ∧ Metadata_of o' = Metadata_of o
  ∧ (err ≠ None → names = []).
Proof. apply convertPatchSets_range_fields_only. Qed.

(** X8.  When no entry of the patch-set converters has a pattern, a
    converter and a match on the name of the composition,
    [convertPatchSets] returns the envelope as it was, no converted name
    and a nil error, without decoding the composition and without
    touching the world. *)
Theorem convertPatchSets_without_applicable_converter (pg : PlanGenerator)
    (o : UnstructuredWithMetadata) (w : World) :
  (∀ psConv, psConv ∈ patchSetConverters (registry pg) →
     ps_applicable (u_GetName (Object o)) psConv = None) →
  convertPatchSets pg o w = (Returns (o, [], None), w).
Proof.
  unfold convertPatchSets.
  generalize (patchSetConverters (registry pg)) as convs.
  induction convs as [|psConv convs IH]; intros Hnone; simpl; [done |].
  pose proof (Hnone psConv (list_elem_of_here _ _)) as Hps.
  unfold ps_applicable in Hps.
  assert (∀ psConv', psConv' ∈ convs →
            ps_applicable (u_GetName (Object o)) psConv' = None) as Hrest.
  { intros psConv' Hin. apply Hnone. by apply list_elem_of_further. }
  destruct (ps_re psConv) as [re|]; [| by apply IH].
  destruct (ps_converter psConv) as [converter|]; [| by apply IH].
  destruct (MatchString re (u_GetName (Object o))); [done |].
  by apply IH.
Qed.

(** *** Configuration and composition conversion *)

(** X9.  The loop of [convertConfiguration] passes over the entries of
    the configuration converters that have no pattern, no converter or no
    match on the name of the object: for them the object is not decoded
    and no converter is invoked, so that the loop goes on with the entries
    after them as if they were not registered; and when no entry applies,
    the loop ends with the configuration and the converted flag it
    started with (nil and false, in [convertConfiguration]), with a nil
    error and with the world as it was. *)
Theorem inapplicable_configuration_converters_are_passed_over
    (skipped : list configurationConverter)
    (o : UnstructuredWithMetadata) :
  (∀ confConv, confConv ∈ skipped →
     applicable (u_GetName (Object o)) confConv = None) →
  (∀ rest conf isConverted,
     convertConfiguration_range (skipped ++ rest) o conf isConverted
     = convertConfiguration_range rest o conf isConverted)
  ∧ (∀ conf isConverted w,
       convertConfiguration_range skipped o conf isConverted w
       = (Returns (conf, isConverted, None), w)).
Proof.
  intros Hnone.
  assert (∀ rest conf isConverted,
            convertConfiguration_range (skipped ++ rest) o conf isConverted
            = convertConfiguration_range rest o conf isConverted) as Hpass.
  { intros rest conf isConverted.
    induction skipped as [|confConv skipped IH]; simpl; [done |].
    pose proof (Hnone confConv (list_elem_of_here _ _)) as Hc.
    unfold applicable in Hc.
    assert (∀ confConv', confConv' ∈ skipped →
              applicable (u_GetName (Object o)) confConv' = None) as Hrest.
    { intros confConv' Hin. apply Hnone. by apply list_elem_of_further. }
    destruct (conf_re confConv) as [re|]; [| by apply IH].
    destruct (conf_converter confConv) as [converter|]; [| by apply IH].
    destruct (MatchString re (u_GetName (Object o))); [done |].
    by apply IH. }
  split; [exact Hpass |].
  intros conf isConverted w.
  rewrite <- (app_nil_r skipped). by rewrite Hpass.
Qed.

Lemma convertConfiguration_range_error (convs : list configurationConverter)
    (o : UnstructuredWithMetadata) :
  ∀ (conf conf' : option metav1_Object) (isConverted flag : bool)
    (e : error) (w w' : World),
    convertConfiguration_range convs o conf isConverted w
    = (Returns (conf', flag, Some e), w') →
    conf' = None ∧ flag = false.
Proof.
  induction convs as [|confConv convs IH];
    intros conf conf' isConverted flag e w w'; simpl; [eff; done |].
  destruct (conf_re confConv) as [re|]; [| apply IH].
  destruct (conf_converter confConv) as [converter|]; [| apply IH].
  destruct (negb _); [apply IH |].
  destruct (toConfiguration (Object o)) as [fresh|e0];
    [| eff; by intros [= <- <- <- <-]].
  unfold bind at 1.
  match goal with
  | |- context [match ?m w with _ => _ end] =>
      destruct (m w) as [[[c [e1|]]|] w1]
  end; [eff; simpl; by intros [= <- <- <- <-] | apply IH | done].
Qed.

(** X10.  An error of [convertConfiguration] or of [convertComposition]
    comes with a nil target and with converted false, on every error path:
    a failed decoding, a failed converter, a failed base or template
    conversion. *)
Theorem conversion_errors_return_nothing (pg : PlanGenerator)
    (o : UnstructuredWithMetadata) :
  (∀ w w' target converted e,
     convertConfiguration pg o w = (Returns (target, converted, Some e), w') →
     target = None ∧ converted = false)
  ∧ (∀ w w' o' target converted e,
       convertComposition pg o w
       = (Returns (o', target, converted, Some e), w') →
       target = None ∧ converted = false).
Proof.
  split.
  - intros w w' target converted e. unfold convertConfiguration, bind.
    destruct (convertConfiguration_range _ _ _ _ w)
      as [[[[conf flag] [e0|]]|] w1]; eff; [| done | done].
    by intros [= <- <- <- <-].
  - intros w w' o' target converted e. unfold convertComposition.
    unfold bind at 1.
    destruct (convertPatchSets pg o w) as [[[[o1 cps] [e0|]]|] w1];
      [eff; simpl; by intros [= <- <- <- <- <-] | | done].
    destruct (convertToComposition (Object o1)) as [comp|e0];
      [| eff; simpl; by intros [= <- <- <- <- <-]].
    unfold bind at 1.
    destruct (convertComposition_range _ _ _ _ _ _ _ w1)
      as [[[[targets flag] [e0|]]|] w2]; eff; [| done | done].
    by intros [= <- <- <- <- <-].
Qed.

(** *** Template defaulting and the fan-out *)

(** X11.  [setDefaultsOnTargetTemplate] never touches the base and the
    other fields of the target; it never resets the name-used flag; the
    call that sets the flag is one for a target of the kind of the source
    and leaves the name of the target and the random source as they were;
    and with an error the target and the flag are as they were. *)
Theorem setDefaults_frame (pg : PlanGenerator) (sourceName : option string)
    (sourceNameUsed used' : bool)
    (gvkSource gvkTarget : schema_GroupVersionKind)
    (target target' : xpv1_ComposedTemplate)
    (patchSets : list xpv1_PatchSet) (convertedPS : list string)
    (err : option error) (w w' : World) :
  setDefaultsOnTargetTemplate pg sourceName sourceNameUsed gvkSource
    gvkTarget target patchSets convertedPS w
  = (Returns (used', target', err), w') →
  Base target' = Base target
  ∧ ct_Fields target' = ct_Fields target
  ∧ (sourceNameUsed = true → used' = true)
  ∧ (used' ≠ sourceNameUsed →
     Kind gvkSource = Kind gvkTarget
     ∧ Name target' = Name target ∧ w' = w)
  ∧ (err ≠ None →
     target' = target ∧ used' = sourceNameUsed ∧ w' = w).
Proof.
  unfold setDefaultsOnTargetTemplate.
  destruct (isGVKSkipped pg gvkSource);
    [eff; by intros [= <- <- <- <-] |].
  destruct (removeInvalidPatches _ _ _ _ _ _) as [patches|e];
    [| eff; by intros [= <- <- <- <-]].
  destruct sourceNameUsed; simpl.
  - destruct sourceName as [name|]; [| eff; by intros [= <- <- <- <-]].
    destruct (0 <? String.length name)%nat;
      [| eff; by intros [= <- <- <- <-]].
    eff. destruct (rand_String 5 w) as [[suffix|] w1]; [| done].
    by intros [= <- <- <- <-].
  - destruct (String.eqb (Kind gvkSource) (Kind gvkTarget)) eqn:Hkind; simpl.
    + apply String.eqb_eq in Hkind. eff. by intros [= <- <- <- <-].
    + destruct sourceName as [name|]; [| eff; by intros [= <- <- <- <-]].
      destruct (0 <? String.length name)%nat;
        [| eff; by intros [= <- <- <- <-]].
      eff. destruct (rand_String 5 w) as [[suffix|] w1]; [| done].
      by intros [= <- <- <- <-].
Qed.

Lemma keeps_source_name_unique (gvk : schema_GroupVersionKind)
    (converted : list UnstructuredWithMetadata) (i j : nat) :
  keeps_source_name gvk converted i →
  keeps_source_name gvk converted j →
  i = j.
Proof.
  intros [(ui & Hui & Hki) Hbi] [(uj & Huj & Hkj) Hbj].
  destruct (Nat.lt_total i j) as [Hlt | [Heq | Hlt]]; [| done |].
  - exfalso. by apply (Hbj i ui).
  - exfalso. by apply (Hbi j uj).
Qed.

Lemma at_most_one_index {A : Type} (P : A → Prop) `{∀ x, Decision (P x)}
    (l : list A) :
  (∀ i j x y, l !! i = Some x → l !! j = Some y → P x → P y → i = j) →
  length (filter P l) ≤ 1.
Proof.
  induction l as [|a l IH]; intros Huniq; [simpl; lia |].
  rewrite filter_cons. destruct (decide (P a)) as [Ha | Ha].
  - destruct (filter P l) as [|x rest] eqn:Hf; [simpl; lia |].
    exfalso. assert (x ∈ filter P l) as Hx.
    { rewrite Hf. apply list_elem_of_here. }
    apply list_elem_of_filter in Hx as [Hpx Hx].
    apply list_elem_of_lookup in Hx as [j Hj].
    by specialize (Huniq 0 (S j) a x eq_refl Hj Ha Hpx).
  - apply IH. intros i j x y Hi Hj Hx Hy.
    by specialize (Huniq (S i) (S j) x y Hi Hj Hx Hy) as [= ->].
Qed.

(** X12.  In the fan-out of a named composed template whose source type
    identifier is not skipped, at most one produced template carries the
    name of the source: two produced templates never collide on it. *)
Theorem at_most_one_template_keeps_the_name (pg : PlanGenerator)
    (cmp : xpv1_ComposedTemplate) (gvk : schema_GroupVersionKind)
    (patchSets : list xpv1_PatchSet) (convertedPS : list string)
    (original : string) (converted : list UnstructuredWithMetadata)
    (cmps : list xpv1_ComposedTemplate) (w w' : World) :
  isGVKSkipped pg gvk = false →
  Name cmp = Some original →
  original ≠ "" →
  convertComposition_targets pg cmp gvk patchSets convertedPS converted
    [] false w
  = (Returns (cmps, None), w') →
  length (filter (λ c, Name c = Some original) cmps) ≤ 1.
Proof.
  intros Hskip Hname Hne Hrun. apply at_most_one_index.
  intros i j ci cj Hi Hj Hni Hnj.
  destruct (targets_naming pg cmp gvk patchSets convertedPS original
              converted Hskip Hname Hne [] cmps false w w' Hrun)
    as (new & -> & _ & Hnew).
  simpl in Hi, Hj.
  destruct (Hnew i ci Hi) as [_ Hgi]. destruct (Hnew j cj Hj) as [_ Hgj].
  destruct (decide (i = j)) as [| Hij]; [done |]. exfalso.
  assert (¬ ¬ keeps_source_name gvk converted i) as Hki.
  { intros Hnk. apply (generated_name_differs original ci); [| done].
    apply Hgi. by right. }
  assert (¬ ¬ keeps_source_name gvk converted j) as Hkj.
  { intros Hnk. apply (generated_name_differs original cj); [| done].
    apply Hgj. by right. }
  apply Hki. intros Hi'. apply Hkj. intros Hj'.
  apply Hij. by apply (keeps_source_name_unique gvk converted).
Qed.

Lemma targets_skipped (pg : PlanGenerator) (cmp : xpv1_ComposedTemplate)
    (gvk : schema_GroupVersionKind) (patchSets : list xpv1_PatchSet)
    (convertedPS : list string)
    (converted : list UnstructuredWithMetadata) :
  isGVKSkipped pg gvk = true →
  ∀ (cmps0 cmps : list xpv1_ComposedTemplate) (sourceNameUsed : bool)
    (w w' : World),
    convertComposition_targets pg cmp gvk patchSets convertedPS converted
      cmps0 sourceNameUsed w
    = (Returns (cmps, None), w') →
    w' = w
    ∧ ∃ new,
        cmps = cmps0 ++ new
        ∧ Forall2 (λ u c, ∃ buff,
                     MarshalJSON (Object u) = Success buff
                     ∧ c = ct_SetBase {| Raw := buff |} cmp)
                  converted new.
Proof.
  intros Hskip.
  induction converted as [|u converted IH];
    intros cmps0 cmps used w w'; simpl.
  - eff. intros [= <- <-]. split; [done |]. exists [].
    rewrite app_nil_r. split; [done | constructor].
  - destruct (MarshalJSON (Object u)) as [buff|e] eqn:Hbuff; [| eff; done].
    unfold bind at 1. unfold setDefaultsOnTargetTemplate. rewrite Hskip.
    unfold ret at 1. intros Hrest.
    apply IH in Hrest as (-> & new & -> & Hall). split; [done |].
    eexists (_ :: new). rewrite <- app_assoc. split; [done |].
    constructor; [| done]. by exists buff.
Qed.

(** X13.  In the fan-out of a composed template whose source type
    identifier is on the skip list, every produced template is the source
    template with the marshalled replacement as its base: all of them
    carry the name and the patches of the source, and nothing is drawn
    from the random source. *)
Theorem skipped_fan_out_copies_the_template (pg : PlanGenerator)
    (cmp : xpv1_ComposedTemplate) (gvk : schema_GroupVersionKind)
    (patchSets : list xpv1_PatchSet) (convertedPS : list string)
    (converted : list UnstructuredWithMetadata)
    (cmps : list xpv1_ComposedTemplate) (w w' : World) :
  isGVKSkipped pg gvk = true →
  convertComposition_targets pg cmp gvk patchSets convertedPS converted
    [] false w
  = (Returns (cmps, None), w') →
  w' = w
  ∧ Forall2 (λ u c, ∃ buff,
               MarshalJSON (Object u) = Success buff
               ∧ c = ct_SetBase {| Raw := buff |} cmp)
            converted cmps.
Proof.
  intros Hskip Hrun.
  destruct (targets_skipped pg cmp gvk patchSets convertedPS converted
              Hskip [] cmps false w w' Hrun) as (-> & new & -> & Hall).
  done.
Qed.

Lemma setDefaults_same_kind (pg : PlanGenerator)
    (sourceName : option string) (used' : bool)
    (gvkSource gvkTarget : schema_GroupVersionKind)
    (target target' : xpv1_ComposedTemplate)
    (patchSets : list xpv1_PatchSet) (convertedPS : list string)
    (err : option error) (w w' : World) :
  setDefaultsOnTargetTemplate pg sourceName false gvkSource gvkTarget target
    patchSets convertedPS w
  = (Returns (used', target', err), w') →
  Kind gvkSource = Kind gvkTarget →
  w' = w
  ∧ (err = None →
     Name target' = Name target ∧ ct_Fields target' = ct_Fields target).
Proof.
  unfold setDefaultsOnTargetTemplate. intros Hrun Hkind. revert Hrun.
  destruct (isGVKSkipped pg gvkSource); [eff; by intros [= <- <- <- <-] |].
  destruct (removeInvalidPatches _ _ _ _ _ _) as [patches|e];
    [| eff; by intros [= <- <- <- <-]].
  rewrite Hkind, String.eqb_refl. simpl. eff. by intros [= <- <- <- <-].
Qed.

Lemma convertComposition_range_without_converters (pg : PlanGenerator)
    (o : UnstructuredWithMetadata) (patchSets : list xpv1_PatchSet)
    (convertedPS : list string) (resources : list xpv1_ComposedTemplate) :
  without_converters pg resources →
  ∀ (targetResources targets : list xpv1_ComposedTemplate)
    (isConverted flag : bool) (w w' : World),
    convertComposition_range pg o patchSets convertedPS resources
      targetResources isConverted w
    = (Returns (targets, flag, None), w') →
    flag = isConverted ∧ w' = w
    ∧ ∃ new, targets = targetResources ++ new
             ∧ Name <$> new = Name <$> resources
             ∧ ct_Fields <$> new = ct_Fields <$> resources.
Proof.
  induction resources as [|cmp resources IH];
    intros Hnone targetResources targets isConverted flag w w'; simpl.
  - eff. intros [= <- <- <-]. split; [done |]. split; [done |].
    exists []. by rewrite app_nil_r.
  - destruct (FromRawExtension (Base cmp)) as [u|e] eqn:Hraw;
      [| eff; done].
    destruct (Hnone cmp u (list_elem_of_here _ _) Hraw) as [Hrc Htc].
    unfold bind at 1. unfold convertResource. simpl. rewrite Hrc.
    unfold ret at 1. simpl.
    destruct (MarshalJSON u) as [buff|e]; [| eff; done].
    unfold bind at 1 2.
    destruct (setDefaultsOnTargetTemplate pg (Name cmp) false
                (u_GroupVersionKind u) (u_GroupVersionKind u)
                (ct_SetBase {| Raw := buff |} cmp) patchSets convertedPS w)
      as [[[[used' c'] err0]|] w0] eqn:Hd; [| done].
    apply setDefaults_same_kind in Hd as [-> Hc']; [| done].
    destruct err0 as [e|]; [eff; done |].
    destruct (Hc' eq_refl) as [Hn Hf].
    unfold ret at 1. simpl. rewrite Htc. unfold bind at 1, ret at 1.
    rewrite orb_false_r. intros Hrest.
    apply IH in Hrest as (-> & -> & new & -> & Hnames & Hfields).
    + split; [done |]. split; [done |].
      exists (c' :: new). rewrite <- app_assoc. split; [done |].
      rewrite !fmap_cons, Hn, Hf, Hnames, Hfields. done.
    + intros cmp' u' Hin. apply Hnone. by apply list_elem_of_further.
Qed.

(** X14.  When no base of the composed templates of a composition has a
    registered resource converter or template converter, a successful
    [convertComposition] reports not converted and returns the
    composition with as many composed templates as before, with their
    names and their other fields in the same order: only bases are
    marshalled again and patches filtered. *)
Theorem composition_without_converters_keeps_its_templates
    (pg : PlanGenerator) (o o' : UnstructuredWithMetadata)
    (target : option UnstructuredWithMetadata) (converted : bool)
    (comp : xpv1_Composition) (w w' : World) :
  convertComposition pg o w = (Returns (o', target, converted, None), w') →
  convertToComposition (Object o') = Success comp →
  without_converters pg (Spec_Resources comp) →
  converted = false
  ∧ ∃ resources,
      target
      = Some {| Object :=
                  ToSanitizedUnstructured
                    (any_Composition (c_SetResources resources comp));
                Metadata_of := Metadata_of o' |}
      ∧ Name <$> resources = Name <$> Spec_Resources comp
      ∧ ct_Fields <$> resources = ct_Fields <$> Spec_Resources comp.
Proof.
  unfold convertComposition. unfold bind at 1.
  destruct (convertPatchSets pg o w) as [[[[o1 convertedPS] err]|] w1];
    [| done].
  destruct err as [e|]; [eff; done |].
  destruct (convertToComposition (Object o1)) as [comp1|e] eqn:Hcomp;
    [| eff; done].
  unfold bind at 1.
  destruct (convertComposition_range _ _ _ _ _ _ _ w1)
    as [[[[targets flag] err]|] w2] eqn:Hrange; [| done].
  destruct err as [e|]; [eff; done |].
  eff. intros [= <- <- <- <-] Hcomp' Hnone.
  rewrite Hcomp in Hcomp'. injection Hcomp' as ->.
  apply (convertComposition_range_without_converters _ _ _ _ _ Hnone)
    in Hrange as (-> & _ & new & -> & Hnames & Hfields).
  split; [done |]. by exists new.
Qed.

(** *** The main pass *)

Ltac round_cases :=
  repeat match goal with
         | |- context [match ?x with _ => _ end] => destruct x eqn:?
         end.

(** What one round of the main pass does to the local accumulators. *)
Lemma convert_object_locals (pg : PlanGenerator)
    (o : UnstructuredWithMetadata) (l l' : Locals) (st st' : State)
    (err : option error) :
  convert_object pg o l st = (Returns (l', err), st') →
  (if is_claim o
   then l' = append_claims o l ∧ err = None ∧ st' = st
   else claims l' = claims l)
  ∧ (convertedComposition l' = convertedComposition l
     ∨ ∃ name,
         convertedComposition l'
         = <[name := name +:+ "-migrated"]> (convertedComposition l))
  ∧ (if is_composite o
     then (err = None ∧ ∃ o', l' = append_composites o' l)
          ∨ (err ≠ None ∧ l' = l)
     else composites l' = composites l).
Proof.
  unfold convert_object, convert_addSteps, is_claim, is_composite, liftW.
  destruct (bool_decide (u_GroupVersionKind (Object o)
                         = xpmetav1_ConfigurationGroupVersionKind));
    destruct (bool_decide (u_GroupVersionKind (Object o)
                           = xpmetav1alpha1_ConfigurationGroupVersionKind));
    destruct (bool_decide (u_GroupVersionKind (Object o)
                           = xpv1_CompositionGroupVersionKind));
    destruct (bool_decide (Metadata_Category (Metadata_of o)
                           = CategoryComposite)) eqn:Hcomposite;
    destruct (bool_decide (Metadata_Category (Metadata_of o)
                           = CategoryClaim)) eqn:Hclaim;
    simpl; eff; round_cases;
    intros [= <- <- <-] || intros [=];
    simpl;
    repeat split;
    try done;
    try (by left);
    try (right; by eexists);
    try (left; split; [done | by eexists]);
    try (right; split; done).
Qed.

(** X15.  The main pass stops at the first error: when the rounds for a
    prefix of the source end with an error, what the source holds after
    the prefix is never looked at, and the error, the accumulators and
    the state are those of the prefix; when they end without an error,
    the pass goes on from the accumulators and the state they left. *)
Theorem main_pass_stops_at_the_first_error (pg : PlanGenerator)
    (before after : Source) (l0 : Locals) (st0 : State) :
  (∀ l e st,
     convert_range pg before l0 st0 = (Returns (l, Some e), st) →
     convert_range pg (before ++ after) l0 st0 = (Returns (l, Some e), st))
  ∧ (∀ l st,
       convert_range pg before l0 st0 = (Returns (l, None), st) →
       convert_range pg (before ++ after) l0 st0
       = convert_range pg after l st)
  ∧ (∀ st,
       convert_range pg before l0 st0 = (Panics, st) →
       convert_range pg (before ++ after) l0 st0 = (Panics, st)).
Proof.
  repeat split; intros; rewrite convert_range_app;
    match goal with H : convert_range _ _ _ _ = _ |- _ => by rewrite H end.
Qed.

(** X16.  When the source fails, on [HasNext] or on [Next], after rounds
    that went well, [convert] returns the error of the source wrapped
    with the message of the failed call, and the state is the one that
    the rounds left: none of the three batch passes (edit composites,
    start composites, edit claims) runs. *)
Theorem source_failure_aborts (pg : PlanGenerator) (before after : Source)
    (l : Locals) (st0 st : State) (err : error) :
  convert_range pg before Locals_empty st0 = (Returns (l, None), st) →
  convert pg (before ++ HasNext_fails err :: after) st0
  = (Returns (Some (errors_WithMessage err errSourceHasNext)), st)
  ∧ convert pg (before ++ Next_fails err :: after) st0
    = (Returns (Some (errors_WithMessage err errSourceNext)), st).
Proof.
  intros Hbefore. unfold convert, bind. fold Locals_empty.
  rewrite !convert_range_app, Hbefore. done.
Qed.

(** X17.  The map of converted compositions only ever maps a name to that
    name followed by [-migrated]: the main pass keeps this, whatever the
    source yields and however the pass ends. *)
Theorem converted_compositions_map_to_migrated_names (pg : PlanGenerator)
    (source : Source) :
  ∀ (l l' : Locals) (st st' : State) (err : option error),
    convert_range pg source l st = (Returns (l', err), st') →
    migrated_names (convertedComposition l) →
    migrated_names (convertedComposition l').
Proof.
  induction source as [|[e|e|o] source IH]; intros l l' st st' err; simpl.
  - eff. by intros [= <- <- <-].
  - eff. by intros [= <- <- <-].
  - eff. by intros [= <- <- <-].
  - unfold bind at 1.
    destruct (convert_object pg o l st) as [[[l1 err1]|] st1] eqn:Hround;
      [| done].
    apply convert_object_locals in Hround as (_ & Hmap & _).
    assert (migrated_names (convertedComposition l) →
            migrated_names (convertedComposition l1)) as Hstep.
    { intros Hl. destruct Hmap as [-> | [name ->]]; [done |].
      intros k v. destruct (decide (name = k)) as [-> | Hne].
      - rewrite lookup_insert_eq. by intros [= <-].
      - rewrite lookup_insert_ne by done. apply Hl. }
    destruct err1 as [e|].
    + eff. intros [= <- <- <-]. exact Hstep.
    + intros Hrest Hl. eapply IH; [exact Hrest |]. by apply Hstep.
Qed.

(** X18.  When the main pass ends without an error, the claims it
    deferred are the claims that the source yielded (the objects of
    category claim whose type identifier is neither a Configuration nor a
    Composition), in the order of the source, after those it started
    with; and a source that yields claims only leaves the state as it
    was. *)
Theorem claims_are_deferred_in_order (pg : PlanGenerator) (source : Source) :
  ∀ (l l' : Locals) (st st' : State),
    convert_range pg source l st = (Returns (l', None), st') →
    claims l' = claims l ++ yielded_claims source
    ∧ (yielded_claims source = yielded source → st' = st).
Proof.
  induction source as [|[e|e|o] source IH]; intros l l' st st'; simpl;
    try (eff; done).
  - eff. intros [= <- <-]. by rewrite app_nil_r.
  - unfold bind at 1.
    destruct (convert_object pg o l st) as [[[l1 err1]|] st1] eqn:Hround;
      [| done].
    apply convert_object_locals in Hround as (Hclaims & _ & _).
    destruct err1 as [e|]; [eff; done |].
    intros Hrest. apply IH in Hrest as [Hrest Hstate].
    destruct (is_claim o).
    + destruct Hclaims as (-> & _ & ->). simpl in Hrest.
      rewrite <- app_assoc in Hrest. split; [done |].
      intros [= Heq]. by apply Hstate.
    + rewrite Hclaims in Hrest. split; [done |].
      intros Heq. exfalso.
      assert (length (yielded_claims source) ≤ length (yielded source)) as Hle.
      { clear. induction source as [|[e|e|o'] source IH]; simpl; try done.
        destruct (is_claim o'); simpl; lia. }
      rewrite Heq in Hle. simpl in Hle. lia.
Qed.

(** X19.  When the main pass ends without an error, it deferred one
    composite for each composite that the source yielded (the objects of
    category composite whose type identifier is neither a Configuration
    nor a Composition), and no other. *)
Theorem composites_are_deferred_once (pg : PlanGenerator) (source : Source) :
  ∀ (l l' : Locals) (st st' : State),
    convert_range pg source l st = (Returns (l', None), st') →
    length (composites l')
    = length (composites l) + yielded_composites source.
Proof.
  induction source as [|[e|e|o] source IH]; intros l l' st st'; simpl;
    try (eff; done).
  - eff. intros [= <- <-]. lia.
  - unfold bind at 1.
    destruct (convert_object pg o l st) as [[[l1 err1]|] st1] eqn:Hround;
      [| done].
    apply convert_object_locals in Hround as (_ & _ & Hcomposites).
    destruct err1 as [e|]; [eff; done |].
    intros Hrest. apply IH in Hrest. rewrite Hrest.
    destruct (is_composite o).
    + destruct Hcomposites as [[_ [o' ->]] | [Hne _]]; [| done].
      simpl. rewrite length_app. simpl. lia.
    + rewrite Hcomposites. lia.
Qed.
End Further.

(** ** Properties of the event handler *)

Section HandlerProperties.
Context {Q : Workqueue}.

Lemma forward_handler (inner : Queue → Queue) (q : nat) (h : Heap) :
  rateLimiterMap (handler (forward inner q h).2) = rateLimiterMap (handler h)
  ∧ logger (handler (forward inner q h).2) = logger (handler h)
  ∧ queue (handler (forward inner q h).2)
    = Some (default q (queue (handler h)))
  ∧ (∀ q', q' ≠ q → queues (forward inner q h).2 !! q' = queues h !! q').
Proof.
  unfold forward, setQueue, logger_Debug, bind.
  destruct h as [[[q0|] m [lg|]] qs]; simpl; repeat split; try done;
    intros q' Hne; by rewrite lookup_alter_ne.
Qed.

Lemma after_call_queue (c : Call) (h : Heap) (q : nat) :
  queue (handler h) = Some q →
  queue (handler (after_call c h)) = Some q.
Proof.
  intros Hq. destruct c; simpl;
    try (unfold Create, Update, Delete, Generic;
         match goal with
         | |- context [forward ?i ?q' h] =>
             destruct (forward_handler i q' h) as (_ & _ & -> & _)
         end; by rewrite Hq).
  - unfold RequestReconcile. rewrite Hq.
    destruct (logger (handler h)); [| done].
    destruct (rateLimiterMap (handler h) !! rateLimiterName);
      destruct (match failureLimit with Some _ => _ | None => _ end);
      simpl; try done;
      by match goal with
         | |- context [When ?n ?r ?i] => destruct (When n r i)
         end.
  - unfold Forget.
    by destruct (rateLimiterMap (handler h) !! rateLimiterName).
Qed.

(** X20.  The queue of the handler is set once: the callback of the first
    event, be it [Create], [Update], [Delete] or [Generic], records the
    queue that the event came with, and from then on no sequence of
    requests, forgets and events, from whatever queue they come, replaces
    it; a request or a forget records no queue. *)
Theorem queue_is_set_once (cs : list Call) (h : Heap) (q : nat) :
  (queue (handler h) = None →
   ∀ c, (event_queue c = Some q →
         queue (handler (after_call c h)) = Some q
         ∧ queue (handler (after_calls (c :: cs) h)) = Some q)
        ∧ (event_queue c = None →
           queue (handler (after_call c h)) = None))
  ∧ (queue (handler h) = Some q →
     queue (handler (after_calls cs h)) = Some q).
Proof.
  assert (∀ cs' h', queue (handler h') = Some q →
                    queue (handler (after_calls cs' h')) = Some q) as Hkeep.
  { induction cs' as [|c cs' IH]; intros h' Hq; simpl; [done |].
    apply IH. by apply after_call_queue. }
  split; [| apply Hkeep].
  intros Hnone c.
  assert (∀ A B : Prop, A → (A → B) → A ∧ B) as Hand by tauto.
  destruct c; simpl; (split; [| try done]); try done;
    try (intros [= ->]; apply Hand; [| apply Hkeep];
         unfold Create, Update, Delete, Generic;
         match goal with
         | |- context [forward ?i ?q' h] =>
             destruct (forward_handler i q' h) as (_ & _ & -> & _)
         end; by rewrite Hnone).
  - intros _. unfold RequestReconcile. by rewrite Hnone.
  - intros _. unfold Forget.
    by destruct (rateLimiterMap (handler h) !! rateLimiterName); rewrite ?Hnone.
Qed.

(** X21.  [RequestReconcile] returns true exactly when the handler has a
    queue and a logger and the request is within its failure limit on the
    limiter of its name (the one of the map, or a new default one); then
    the item is added to the queue of the handler after the delay that
    the limiter gave, and the limiter is stored under the name.  In every
    other case nothing is added to any queue, and without a queue the
    handler is left as it was, no limiter being created. *)
Theorem RequestReconcile_queues_when_true (now : Time)
    (rateLimiterName name : string) (failureLimit : option Z) (h : Heap) :
  let item := request name in
  let rateLimiter := limiter_of (handler h) rateLimiterName in
  let r := RequestReconcile now rateLimiterName name failureLimit h in
  (r.1 = Returns true
   ↔ is_Some (queue (handler h)) ∧ is_Some (logger (handler h))
     ∧ within_limit rateLimiter item failureLimit)
  ∧ (r.1 = Returns true →
     ∃ q, queue (handler h) = Some q
          ∧ queues r.2
            = alter (AddAfter item (When now rateLimiter item).1) q
                    (queues h)
          ∧ rateLimiterMap (handler r.2)
            = <[rateLimiterName := (When now rateLimiter item).2]>
                (rateLimiterMap (handler h)))
  ∧ (r.1 ≠ Returns true → queues r.2 = queues h)
  ∧ (queue (handler h) = None → r = (Returns false, h)).
Proof.
  unfold RequestReconcile, limiter_of, within_limit.
  destruct h as [[[q|] m lg] qs]; simpl.
  2:{ repeat split; try done. by intros ([? ?] & _). }
  destruct lg as [lg|]; simpl.
  2:{ repeat split; try done. by intros (_ & [? ?] & _). }
  destruct (m !! rateLimiterName) as [rl|] eqn:Hrl; simpl;
    destruct failureLimit as [limit|]; simpl;
    try destruct (limit <? NumRequeues _ _)%Z eqn:Hlimit; simpl;
    try (apply Z.ltb_lt in Hlimit); try (apply Z.ltb_ge in Hlimit);
    try (destruct (When now _ (request name)) as [when rl'] eqn:Hwhen);
    simpl; repeat split; try done; try lia; try (by eexists);
    try (intros (_ & _ & Hle); lia);
    try (intros _; exists q; repeat split; try done;
         by rewrite ?insert_insert_eq).
Qed.

Lemma after_call_rateLimiterMap (c : Call) (h : Heap) (other : string) :
  rateLimiterName_of c ≠ Some other →
  rateLimiterMap (handler (after_call c h)) !! other
  = rateLimiterMap (handler h) !! other.
Proof.
  intros Hother. destruct c; simpl in *;
    try (unfold Create, Update, Delete, Generic;
         match goal with
         | |- context [forward ?i ?q' h] =>
             destruct (forward_handler i q' h) as (-> & _)
         end; done).
  - assert (rateLimiterName ≠ other) as Hne by congruence.
    unfold RequestReconcile.
    destruct (queue (handler h)); [| done].
    destruct (logger (handler h)); [| done].
    destruct (rateLimiterMap (handler h) !! rateLimiterName);
      destruct (match failureLimit with Some _ => _ | None => _ end);
      simpl; try done;
      try match goal with
          | |- context [When ?n ?r ?i] => destruct (When n r i)
          end; simpl; by rewrite ?lookup_insert_ne.
  - assert (rateLimiterName ≠ other) as Hne by congruence.
    unfold Forget.
    destruct (rateLimiterMap (handler h) !! rateLimiterName); simpl;
      [by rewrite lookup_insert_ne | done].
Qed.

Lemma after_call_keeps_names (c : Call) (h : Heap) (n : string) :
  is_Some (rateLimiterMap (handler h) !! n) →
  is_Some (rateLimiterMap (handler (after_call c h)) !! n).
Proof.
  intros Hn.
  destruct (decide (rateLimiterName_of c = Some n)) as [Hc | Hc];
    [| by rewrite after_call_rateLimiterMap].
  destruct c; simpl in *; try done; injection Hc as ->.
  - unfold RequestReconcile.
    destruct (queue (handler h)); [| done].
    destruct (logger (handler h)); [| done].
    destruct (rateLimiterMap (handler h) !! n) eqn:Hm;
      [| by destruct Hn].
    destruct (match failureLimit with Some _ => _ | None => _ end);
      simpl; [by rewrite Hm |].
    destruct (When _ _ _). simpl. rewrite lookup_insert_eq. by eexists.
  - unfold Forget.
    destruct (rateLimiterMap (handler h) !! n) eqn:Hm; simpl;
      [| by rewrite Hm].
    rewrite lookup_insert_eq. by eexists.
Qed.

(** X22.  The rate limiters of the handler are independent and are never
    dropped: a call leaves the limiters of the names it does not go
    through as they were (an event leaves all of them), a name that has a
    limiter keeps one through any sequence of calls, and [Forget] on a
    name without a limiter changes nothing: it creates none. *)
Theorem rate_limiters_are_independent (cs : list Call) (h : Heap)
    (n : string) :
  (∀ c, rateLimiterName_of c ≠ Some n →
     rateLimiterMap (handler (after_call c h)) !! n
     = rateLimiterMap (handler h) !! n)
  ∧ (is_Some (rateLimiterMap (handler h) !! n) →
     is_Some (rateLimiterMap (handler (after_calls cs h)) !! n))
  ∧ (rateLimiterMap (handler h) !! n = None →
     ∀ name, Forget n name h = (Returns (), h)).
Proof.
  split; [intros c; apply after_call_rateLimiterMap |]. split.
  - revert h. induction cs as [|c cs IH]; intros h Hn; simpl; [done |].
    apply IH. by apply after_call_keeps_names.
  - intros Hnone name. unfold Forget. by rewrite Hnone.
Qed.

(** X23.  A call touches one queue at most: a request the queue of the
    handler, an event the queue it came with (not the queue of the
    handler, when they differ), a forget none; the other queues of the
    store are as they were. *)
Theorem calls_touch_one_queue (c : Call) (h : Heap) (q' : nat) :
  match c with
  | Call_RequestReconcile _ _ _ _ => queue (handler h) ≠ Some q'
  | Call_Forget _ _ => True
  | Call_Create _ q | Call_Update _ q | Call_Delete _ q
  | Call_Generic _ q => q ≠ q'
  end →
  queues (after_call c h) !! q' = queues h !! q'.
Proof.
  destruct c; simpl; intros Hq;
    try (unfold Create, Update, Delete, Generic;
         match goal with
         | |- context [forward ?i ?q0 h] =>
             destruct (forward_handler i q0 h) as (_ & _ & _ & Hqs)
         end; by apply Hqs).
  - unfold RequestReconcile.
    destruct (queue (handler h)) as [q|]; [| done].
    destruct (logger (handler h)); [| done].
    destruct (rateLimiterMap (handler h) !! rateLimiterName);
      destruct (match failureLimit with Some _ => _ | None => _ end);
      simpl; try done;
      match goal with
      | |- context [When ?n ?r ?i] => destruct (When n r i)
      end; simpl; rewrite lookup_alter_ne; congruence.
  - unfold Forget.
    by destruct (rateLimiterMap (handler h) !! rateLimiterName).
Qed.

Lemma after_call_without_logger (c : Call) (h : Heap) :
  logger (handler h) = None →
  logger (handler (after_call c h)) = None
  ∧ queues (after_call c h) = queues h.
Proof.
  intros Hl. destruct c; simpl;
    try (unfold Create, Update, Delete, Generic, forward, setQueue,
           logger_Debug, bind;
         destruct (queue (handler h)); simpl; by rewrite Hl).
  - unfold RequestReconcile. rewrite Hl.
    by destruct (queue (handler h)).
  - unfold Forget.
    by destruct (rateLimiterMap (handler h) !! rateLimiterName).
Qed.

(** X24.  A handler without a logger, as [NewEventHandler] builds it when
    [WithLogger] is not among its options, never gets one and never
    queues anything, whatever is called on it: each of the four event
    callbacks, [Create], [Update], [Delete] and [Generic], panics after
    it recorded the queue and before it reached the inner handler, and
    [RequestReconcile] returns false as long as no queue is recorded and
    panics from then on. *)
Theorem handler_without_logger_never_queues (cs : list Call) (h : Heap) :
  logger (handler h) = None →
  logger (NewEventHandler []) = None
  ∧ queues (after_calls cs h) = queues h
  ∧ (∀ q,
       (∀ ev, panics_after_setQueue (Create ev q) q (after_calls cs h))
       ∧ (∀ ev, panics_after_setQueue (Update ev q) q (after_calls cs h))
       ∧ (∀ ev, panics_after_setQueue (Delete ev q) q (after_calls cs h))
       ∧ (∀ ev, panics_after_setQueue (Generic ev q) q (after_calls cs h)))
  ∧ (∀ now rateLimiterName name failureLimit,
       (RequestReconcile now rateLimiterName name failureLimit
          (after_calls cs h)).1
       = match queue (handler (after_calls cs h)) with
         | Some _ => Panics
         | None => Returns false
         end).
Proof.
  intros Hl. split; [done |].
  assert (logger (handler (after_calls cs h)) = None
          ∧ queues (after_calls cs h) = queues h) as [Hl' Hqs].
  { revert h Hl. induction cs as [|c cs IH]; intros h Hl; simpl; [done |].
    destruct (after_call_without_logger c h Hl) as [Hl1 Hq1].
    destruct (IH _ Hl1) as [Hl2 Hq2]. split; [done | congruence]. }
  split; [done |]. split.
  - assert (∀ inner q,
              panics_after_setQueue (forward inner q) q (after_calls cs h))
      as Hforward.
    { intros inner q.
      unfold panics_after_setQueue, forward, setQueue, logger_Debug, bind.
      destruct (queue (handler (after_calls cs h))) eqn:Hq; simpl;
        rewrite Hl'; simpl; by rewrite ?Hq. }
    intros q. split; [| split; [| split]]; intros ev; apply Hforward.
  - intros now rateLimiterName name failureLimit.
    unfold RequestReconcile. rewrite Hl'.
    by destruct (queue (handler (after_calls cs h))).
Qed.
End HandlerProperties.

(** ** The further properties on the concrete generator and handler *)

(** X4 at work: the bucket [logs] and the converter that renames it to
    [logs-v1]: the replacement, which has no name, gets the prefix
    [logs-v1-]. *)
Lemma convertResource_envelopes_witness :
  Forall (λ t, Metadata_of t = Metadata_of demo_bucket) demo_renamed_targets
  ∧ ∃ conv mg ok mg' resources,
      resourceConverters (registry demo_pg_rename)
        !! u_GroupVersionKind (Object demo_bucket) = Some conv
      ∧ toManagedResource (scheme (registry demo_pg_rename))
                          (Object demo_bucket) = (mg, ok, None)
      ∧ Resource conv mg 0 = (Returns (mg', resources, None), 0)
      ∧ assertGVK resources = None
      ∧ (false = true →
         demo_renamed_targets = map (enveloped demo_bucket) resources)
      ∧ (false = false →
         ∃ m, rewritten mg mg' = Some m
              ∧ demo_renamed_targets
                = map (enveloped demo_bucket)
                      (assertMetadataName (mg_GetName m) resources)).
Proof.
  assert (convertResource demo_pg_rename demo_bucket false 0
          = (Returns (demo_renamed_targets, true, None), 0)) as Hrun
    by reflexivity.
  destruct (convertResource_envelopes demo_pg_rename demo_bucket false
              0 0 demo_renamed_targets true Hrun) as (Hmeta & _ & Hconv).
  split; [exact Hmeta | exact (Hconv eq_refl)].
Defined.

(** X6 at work: an entry for the secrets of the core group skips the
    secrets of any group. *)
Lemma empty_group_cannot_be_matched_exactly_witness :
  gvkMatches {| Group := ""; Version := "v1"; Kind := "Secret" |}
             {| Group := "demo.example.org"; Version := "v1";
                Kind := "Secret" |} = true.
Proof.
  apply (empty_group_cannot_be_matched_exactly
           {| Group := ""; Version := "v1"; Kind := "Secret" |}
           {| Group := ""; Version := "v1"; Kind := "Secret" |}
           {| Group := "demo.example.org"; Version := "v1";
              Kind := "Secret" |}); reflexivity.
Defined.

(** X7 at work: the patch-set converter of [demo_pg_patchsets] rewrites
    the fields of the composition only. *)
Lemma convertPatchSets_rewrites_fields_only_witness :
  u_GroupVersionKind (Object demo_patched_composition)
  = u_GroupVersionKind (Object demo_composition)
  ∧ u_GetName (Object demo_patched_composition)
    = u_GetName (Object demo_composition)
  ∧ u_GetGenerateName (Object demo_patched_composition)
    = u_GetGenerateName (Object demo_composition)
  ∧ Metadata_of demo_patched_composition = Metadata_of demo_composition
  ∧ ((None : option error) ≠ None → ["common"] = ([] : list string)).
Proof.
  assert (convertPatchSets demo_pg_patchsets demo_composition 0
          = (Returns (demo_patched_composition, ["common"], None), 0))
    as Hrun by reflexivity.
  apply (convertPatchSets_rewrites_fields_only demo_pg_patchsets
           demo_composition demo_patched_composition ["common"] None 0 0
           Hrun).
Defined.

(** X8 at work: a registry without patch-set converters. *)
Lemma convertPatchSets_without_applicable_converter_witness :
  convertPatchSets demo_pg_fanout demo_composition 0
  = (Returns (demo_composition, [], None), 0).
Proof.
  apply (convertPatchSets_without_applicable_converter demo_pg_fanout
           demo_composition 0).
  intros psConv Hin. by apply elem_of_nil in Hin.
Defined.

(** X9 at work: three inapplicable entries, before a converter that
    applies to the configuration of the example. *)
Lemma inapplicable_configuration_converters_are_passed_over_witness :
  convertConfiguration_range
    (demo_inapplicable
       ++ [{| conf_re := Some demo_any_name;
              conf_converter := Some (demo_dependOn "provider-azure") |}])
    demo_configuration None false 0
  = (Returns (Some (Configuration_v1 ["provider-aws"; "provider-azure"]),
              true, None), 0)
  ∧ convertConfiguration_range demo_inapplicable demo_configuration None
      false 0
    = (Returns (None, false, None), 0).
Proof.
  destruct (inapplicable_configuration_converters_are_passed_over
              demo_inapplicable demo_configuration) as [Hpass Hend].
  - intros confConv Hin.
    repeat (apply elem_of_cons in Hin as [-> | Hin]; [reflexivity |]).
    by apply elem_of_nil in Hin.
  - split; [by rewrite Hpass | apply Hend].
Defined.

(** X11 at work: the first template of the kind of the source takes the
    name. *)
Lemma setDefaults_frame_witness :
  Base demo_template = Base demo_template
  ∧ ct_Fields demo_template = ct_Fields demo_template
  ∧ (false = true → true = true)
  ∧ (true ≠ false →
     Kind (demo_gvk "Bucket") = Kind (demo_gvk "Bucket")
     ∧ Name demo_template = Name demo_template ∧ 0 = 0)
  ∧ ((None : option error) ≠ None →
     demo_template = demo_template ∧ true = false ∧ 0 = 0).
Proof.
  assert (setDefaultsOnTargetTemplate demo_pg_fanout (Some "bucket") false
            (demo_gvk "Bucket") (demo_gvk "Bucket") demo_template [] [] 0
          = (Returns (true, demo_template, None), 0)) as Hrun by reflexivity.
  apply (setDefaults_frame demo_pg_fanout (Some "bucket") false true
           (demo_gvk "Bucket") (demo_gvk "Bucket") demo_template
           demo_template [] [] None 0 0 Hrun).
Defined.

(** X12 at work: one of the two templates of the fan-out of [bucket] is
    called [bucket]. *)
Lemma at_most_one_template_keeps_the_name_witness :
  length (filter (λ c, Name c = Some "bucket") demo_fanout_templates) ≤ 1.
Proof.
  apply (at_most_one_template_keeps_the_name demo_pg_fanout demo_template
           (demo_gvk "Bucket") [] [] "bucket" demo_converted
           demo_fanout_templates 0 1).
  - reflexivity.
  - reflexivity.
  - discriminate.
  - reflexivity.
Defined.

(** X13 at work: with buckets on the skip list both templates of the
    fan-out are called [bucket]. *)
Lemma skipped_fan_out_copies_the_template_witness :
  0 = 0
  ∧ Forall2 (λ u c, ∃ buff,
               MarshalJSON (Object u) = Success buff
               ∧ c = ct_SetBase {| Raw := buff |} demo_template)
            demo_converted demo_skipped_templates.
Proof.
  apply (skipped_fan_out_copies_the_template demo_pg_skip demo_template
           (demo_gvk "Bucket") [] [] demo_converted demo_skipped_templates
           0 0); reflexivity.
Defined.

(** X14 at work: the composition of the example and a registry without
    resource converters. *)
Lemma composition_without_converters_keeps_its_templates_witness :
  false = false
  ∧ ∃ resources,
      Some demo_patched_composition
      = Some {| Object :=
                  ToSanitizedUnstructured
                    (any_Composition
                       (c_SetResources resources demo_patched_comp));
                Metadata_of := Metadata_of demo_patched_composition |}
      ∧ Name <$> resources = Name <$> Spec_Resources demo_patched_comp
      ∧ ct_Fields <$> resources
        = ct_Fields <$> Spec_Resources demo_patched_comp.
Proof.
  assert (convertComposition demo_pg_patchsets demo_composition 0
          = (Returns (demo_patched_composition,
                      Some demo_patched_composition, false, None), 0))
    as Hrun by reflexivity.
  apply (composition_without_converters_keeps_its_templates
           demo_pg_patchsets demo_composition demo_patched_composition
           (Some demo_patched_composition) false demo_patched_comp 0 0 Hrun).
  - reflexivity.
  - intros cmp u Hin Hraw. apply list_elem_of_singleton in Hin as ->.
    injection Hraw as <-. split; reflexivity.
Defined.

(** X16 at work: a source that fails after a claim. *)
Lemma source_failure_aborts_witness :
  convert demo_pg_fanout
    ([Next_yields demo_claim]
       ++ HasNext_fails (errors_New "connection lost")
       :: [Next_yields demo_bucket]) demo_state
  = (Returns (Some (errors_WithMessage (errors_New "connection lost")
                                       errSourceHasNext)), demo_state)
  ∧ convert demo_pg_fanout
      ([Next_yields demo_claim]
         ++ Next_fails (errors_New "connection lost")
         :: [Next_yields demo_bucket]) demo_state
    = (Returns (Some (errors_WithMessage (errors_New "connection lost")
                                         errSourceNext)), demo_state).
Proof.
  apply (source_failure_aborts demo_pg_fanout [Next_yields demo_claim]
           [Next_yields demo_bucket] (append_claims demo_claim Locals_empty)
           demo_state demo_state (errors_New "connection lost")).
  reflexivity.
Defined.

(** X17 at work: the round for the composition of the example. *)
Lemma converted_compositions_map_to_migrated_names_witness :
  migrated_names
    (convertedComposition
       (set_convertedComposition "xbuckets" "xbuckets-migrated"
          Locals_empty)).
Proof.
  eapply (converted_compositions_map_to_migrated_names demo_pg_fanout
            [Next_yields demo_composition] Locals_empty _ demo_state _ None).
  - reflexivity.
  - intros name migratedName Hname. simpl in Hname.
    by rewrite lookup_empty in Hname.
Defined.

(** X18 at work: a source of one claim. *)
Lemma claims_are_deferred_in_order_witness :
  claims (append_claims demo_claim Locals_empty)
  = claims Locals_empty ++ yielded_claims [Next_yields demo_claim]
  ∧ (yielded_claims [Next_yields demo_claim]
     = yielded [Next_yields demo_claim] → demo_state = demo_state).
Proof.
  apply (claims_are_deferred_in_order demo_pg_fanout
           [Next_yields demo_claim] Locals_empty
           (append_claims demo_claim Locals_empty) demo_state demo_state).
  reflexivity.
Defined.

(** X19 at work: a source of one composite and one claim. *)
Lemma composites_are_deferred_once_witness :
  length (composites (append_claims demo_claim
                        (append_composites demo_composite Locals_empty)))
  = length (composites Locals_empty)
    + yielded_composites [Next_yields demo_composite; Next_yields demo_claim].
Proof.
  eapply (composites_are_deferred_once demo_pg_fanout
            [Next_yields demo_composite; Next_yields demo_claim]
            Locals_empty _ demo_state _).
  reflexivity.
Defined.

(** X23 at work: an event from queue 1 leaves queue 2 as it was. *)
Lemma calls_touch_one_queue_witness :
  queues (after_call demo_event demo_heap) !! 2
  = queues demo_heap !! 2.
Proof.
  apply (calls_touch_one_queue demo_event demo_heap 2).
  simpl. lia.
Defined.

(** X24 at work: a handler without a logger, after an event and a
    request. *)
Lemma handler_without_logger_never_queues_witness :
  logger (NewEventHandler []) = None
  ∧ queues (after_calls demo_calls demo_heap_without_logger)
    = queues demo_heap_without_logger
  ∧ (∀ q,
       (∀ ev, panics_after_setQueue (Create ev q) q
                (after_calls demo_calls demo_heap_without_logger))
       ∧ (∀ ev, panics_after_setQueue (Update ev q) q
                  (after_calls demo_calls demo_heap_without_logger))
       ∧ (∀ ev, panics_after_setQueue (Delete ev q) q
                  (after_calls demo_calls demo_heap_without_logger))
       ∧ (∀ ev, panics_after_setQueue (Generic ev q) q
                  (after_calls demo_calls demo_heap_without_logger)))
  ∧ (∀ now rateLimiterName name failureLimit,
       (RequestReconcile now rateLimiterName name failureLimit
          (after_calls demo_calls demo_heap_without_logger)).1
       = match queue (handler (after_calls demo_calls
                                 demo_heap_without_logger)) with
         | Some _ => Panics
         | None => Returns false
         end).
Proof.
  apply (handler_without_logger_never_queues demo_calls
           demo_heap_without_logger).
  reflexivity.
Defined.

(** The handler on small inputs: three requests under one name, with a
    failure limit of one requeue. *)
Example requests_back_off_until_the_limit :
  let h1 := after_call demo_event demo_heap in
  let r1 := @RequestReconcile demo_Workqueue 10 "default" "pod" (Some 1%Z) h1 in
  let r2 := @RequestReconcile demo_Workqueue 20 "default" "pod" (Some 1%Z) r1.2 in
  let r3 := @RequestReconcile demo_Workqueue 30 "default" "pod" (Some 1%Z) r2.2 in
  r1.1 = Returns true ∧ r2.1 = Returns true ∧ r3.1 = Returns false
  ∧ queues r3.2 !! 1 = Some [("pod", 0); ("pod", 11); ("pod", 22)]
  ∧ (@RequestReconcile demo_Workqueue 40 "default" "pod" (Some 1%Z)
       (@Forget demo_Workqueue "default" "pod" r3.2).2).1 = Returns true.
Proof. repeat split. Qed.
